(** * DynamicProgramming/DPPwNumba.ipynb: the value-function update kernel

    A shallow embedding of the three code cells of the notebook

    - cell 1: array initialisation with [np.zeros] and the interpreted
      double loop [Vmat[i, j] = e[i, j] + betafirm * V[j]];
    - cell 3: the vectorised update
      [VV = np.tile(np.reshape(V, (1, sizek)), (sizek, 1))],
      [Vmat = e + betafirm * VV];
    - cell 5: the function [VFI_loop], the same double loop under
      [@numba.jit()].

    NumPy arrays are mutable objects that live in a heap and are passed by
    reference, so the embedding threads an explicit store through a small
    state-and-exception monad.  Array entries are IEEE-754 binary64 numbers
    ([np.zeros] allocates [float64]), modelled by the executable
    specification of the Standard Library ([SpecFloat], precision 53,
    maximal exponent 1024). *)

From Stdlib Require Import ZArith Lia SpecFloat.
From stdpp Require Import base option list gmap.

Local Open Scope Z_scope.

(** ** Binary64 scalars *)

Module F64.

Definition prec : Z := 53.
Definition emax : Z := 1024.

Definition f64 : Type := spec_float.

Definition zero : f64 := S754_zero false.
Definition nan : f64 := S754_nan.

Definition add (x y : f64) : f64 := SFadd prec emax x y.
Definition mul (x y : f64) : f64 := SFmul prec emax x y.
Definition sub (x y : f64) : f64 := SFsub prec emax x y.
Definition div (x y : f64) : f64 := SFdiv prec emax x y.
Definition abs (x : f64) : f64 := SFabs x.
Definition ltb (x y : f64) : bool := SFltb x y.

(** Conversion of a Python [int]; exact below [2^53]. *)
Definition of_Z (z : Z) : f64 := binary_normalize prec emax z 0 false.

(** The decimal literal [n/d] (for instance [0.96] is [of_ratio 96 100]):
    both [n] and [d] are exactly representable, and IEEE division is
    correctly rounded, so this is the binary64 number nearest to the
    rational [n/d], which is what the Python parser produces. *)
Definition of_ratio (n d : Z) : f64 := div (of_Z n) (of_Z d).

(** "Real-valued": neither an infinity nor a NaN. *)
Definition is_finite (x : f64) : bool :=
  match x with
  | S754_zero _ | S754_finite _ _ _ => true
  | S754_infinity _ | S754_nan => false
  end.

#[global] Instance f64_eq_dec : EqDecision f64.
Proof. solve_decision. Defined.

End F64.

Import F64.

(** ** Arrays, heap and exceptions *)

(** The notebook only ever builds a one-dimensional [V] and two-dimensional
    [e], [Vmat] and [VV]; the embedding fixes these ranks in the types.
    A matrix is its list of rows together with the column count, so that
    the shape [(0, c)] is representable. *)

Abbreviation vector := (list f64).

Record matrix : Type := Matrix { ncols : nat; mrows : list (list f64) }.

Definition nrows (m : matrix) : nat := length (mrows m).

Definition shape (m : matrix) : nat * nat := (nrows m, ncols m).

(** Every row has [ncols] entries. *)
Definition mat_wf (m : matrix) : Prop :=
  Forall (fun r => length r = ncols m) (mrows m).

#[global] Instance matrix_eq_dec : EqDecision matrix.
Proof. solve_decision. Defined.

Definition loc : Type := positive.

Record store : Type := Store {
  vecs : gmap loc (list f64);
  mats : gmap loc matrix
}.

Inductive exn : Type :=
| IndexError   (* index out of bounds for an axis *)
| ValueError   (* negative dimensions, reshape size, broadcast shapes *)
| NameError.   (* reference to an object that is not in the store *)

Inductive outcome (A : Type) : Type :=
| Ok (a : A)
| Raise (x : exn).
Arguments Ok {A} a.
Arguments Raise {A} x.

(** A raised exception keeps the store as it is at the raise: writes made
    before it are not rolled back. *)
Definition M (A : Type) : Type := store -> outcome A * store.

Definition ret {A} (a : A) : M A := fun st => (Ok a, st).

Definition raise {A} (x : exn) : M A := fun st => (Raise x, st).

Definition bind {A B} (c : M A) (k : A -> M B) : M B :=
  fun st =>
    match c st with
    | (Ok a, st') => k a st'
    | (Raise x, st') => (Raise x, st')
    end.

Declare Scope py_scope.
Delimit Scope py_scope with py.
Notation "x <- c ;; k" := (bind c (fun x => k))
  (at level 100, c at next level, right associativity) : py_scope.
Notation "c ;; k" := (bind c (fun _ => k))
  (at level 100, right associativity) : py_scope.
Local Open Scope py_scope.

Definition get_vec (a : loc) : M vector :=
  fun st => match vecs st !! a with
            | Some v => (Ok v, st)
            | None => (Raise NameError, st)
            end.

Definition get_mat (a : loc) : M matrix :=
  fun st => match mats st !! a with
            | Some m => (Ok m, st)
            | None => (Raise NameError, st)
            end.

Definition put_mat (a : loc) (m : matrix) : M unit :=
  fun st => (Ok tt, Store (vecs st) (<[a := m]> (mats st))).

(** A new array object gets an identity no live object has. *)
Definition alloc_vec (v : vector) : M loc :=
  fun st => let a := fresh (dom (vecs st)) in
            (Ok a, Store (<[a := v]> (vecs st)) (mats st)).

Definition alloc_mat (m : matrix) : M loc :=
  fun st => let a := fresh (dom (mats st)) in
            (Ok a, Store (vecs st) (<[a := m]> (mats st))).

Definition lift_index {A} (o : option A) : M A :=
  match o with
  | Some a => ret a
  | None => raise IndexError
  end.

(** ** Indexing *)

(** An index [i] on an axis of extent [n]: [0 <= i < n] is itself,
    [-n <= i < 0] counts from the end, anything else is out of bounds. *)
Definition norm_index (n : nat) (i : Z) : option nat :=
  if (0 <=? i) && (i <? Z.of_nat n) then Some (Z.to_nat i)
  else if (- Z.of_nat n <=? i) && (i <? 0) then Some (Z.to_nat (i + Z.of_nat n))
  else None.

(** [v[j]] *)
Definition vec_item (v : vector) (j : Z) : option f64 :=
  j' ← norm_index (length v) j; v !! j'.

(** [m[i, j]] *)
Definition mat_item (m : matrix) (i j : Z) : option f64 :=
  i' ← norm_index (nrows m) i;
  j' ← norm_index (ncols m) j;
  r ← mrows m !! i';
  r !! j'.

(** [m[i, j] = x], as a new matrix value. *)
Definition mat_store (m : matrix) (i j : Z) (x : f64) : option matrix :=
  i' ← norm_index (nrows m) i;
  j' ← norm_index (ncols m) j;
  r ← mrows m !! i';
  if decide (j' < length r)%nat
  then Some (Matrix (ncols m) (<[i' := <[j' := x]> r]> (mrows m)))
  else None.

Definition vec_getitem (a : loc) (j : Z) : M f64 :=
  v <- get_vec a ;; lift_index (vec_item v j).

Definition mat_getitem (a : loc) (i j : Z) : M f64 :=
  m <- get_mat a ;; lift_index (mat_item m i j).

Definition mat_setitem (a : loc) (i j : Z) (x : f64) : M unit :=
  m <- get_mat a ;;
  m' <- lift_index (mat_store m i j x) ;;
  put_mat a m'.

(** ** Control flow *)

(** [range(stop)]: empty when [stop <= 0]. *)
Definition range (stop : Z) : list Z := Z.of_nat <$> seq 0 (Z.to_nat stop).

(** [for x in l: body(x)] *)
Fixpoint for_each {A} (l : list A) (body : A -> M unit) : M unit :=
  match l with
  | [] => ret tt
  | x :: l' => body x ;; for_each l' body
  end.

(** ** Cell 5: [VFI_loop]

    The right-hand side is evaluated left to right ([e[i, j]], then
    [V[j]]) before the store into [Vmat[i, j]].  The function is embedded
    with the meaning of its Python body.  Under [@numba.jit()] the compiled
    code has that meaning on the runs in which every index is within
    bounds, which are the runs the embedding ends with [Ok]; it checks no
    bounds, so what it does on an index out of range is not what Python
    does and is not modelled.  Every statement below about [VFI_loop] is
    about a run that returns normally; the behaviour on arrays that are too
    small is stated for the interpreted loop of cell 1 only. *)
Definition VFI_loop (V : loc) (e : loc) (betafirm : f64) (sizek : Z) (Vmat : loc)
  : M loc :=
  for_each (range sizek) (fun i =>
    for_each (range sizek) (fun j =>
      eij <- mat_getitem e i j ;;
      vj <- vec_getitem V j ;;
      mat_setitem Vmat i j (add eij (mul betafirm vj)))) ;;
  ret Vmat.

(** ** NumPy constructors and whole-array operations *)

Definition mat_zeros (r c : nat) : matrix :=
  Matrix c (replicate r (replicate c zero)).

(** [np.zeros(n)] *)
Definition np_zeros1 (n : Z) : M loc :=
  if n <? 0 then raise ValueError
  else alloc_vec (replicate (Z.to_nat n) zero).

(** [np.zeros((r, c))] *)
Definition np_zeros2 (r c : Z) : M loc :=
  if (r <? 0) || (c <? 0) then raise ValueError
  else alloc_mat (mat_zeros (Z.to_nat r) (Z.to_nat c)).

(** [np.reshape(v, (1, c))]: [c = -1] asks for the extent to be inferred;
    otherwise the sizes must agree. *)
Definition np_reshape_row (v : vector) (c : Z) : M matrix :=
  if decide (c = -1) then ret (Matrix (length v) [v])
  else if decide (c = Z.of_nat (length v)) then ret (Matrix (length v) [v])
  else raise ValueError.

(** [np.tile(m, (reps, 1))]: the rows of [m], [reps] times over. *)
Definition np_tile_rows (m : matrix) (reps : Z) : M matrix :=
  if reps <? 0 then raise ValueError
  else ret (Matrix (ncols m) (mjoin (replicate (Z.to_nat reps) (mrows m)))).

Definition mat_entry (m : matrix) (i j : nat) : f64 :=
  default nan (r ← mrows m !! i; r !! j).

Definition mat_init (r c : nat) (f : nat -> nat -> f64) : matrix :=
  Matrix c ((fun i => f i <$> seq 0 c) <$> seq 0 r).

(** [x * m] for a scalar [x]. *)
Definition scalar_mul (x : f64) (m : matrix) : matrix :=
  Matrix (ncols m) ((fun r : list f64 => mul x <$> r) <$> mrows m).

(** Broadcasting of one axis: equal extents, or one of them is 1. *)
Definition broadcast_dim (a b : nat) : option nat :=
  if decide (a = b) then Some a
  else if decide (a = 1%nat) then Some b
  else if decide (b = 1%nat) then Some a
  else None.

Definition bc_index (extent i : nat) : nat :=
  if decide (extent = 1%nat) then 0%nat else i.

(** [a + b] on two matrices, with broadcasting. *)
Definition mat_add (a b : matrix) : M matrix :=
  match broadcast_dim (nrows a) (nrows b), broadcast_dim (ncols a) (ncols b) with
  | Some r, Some c =>
      ret (mat_init r c (fun i j =>
             add (mat_entry a (bc_index (nrows a) i) (bc_index (ncols a) j))
                 (mat_entry b (bc_index (nrows b) i) (bc_index (ncols b) j))))
  | _, _ => raise ValueError
  end.

(** ** The notebook's global names *)

Record namespace : Type := Namespace {
  ns_sizek : Z;
  ns_betafirm : f64;
  ns_Vmat : loc;
  ns_e : loc;
  ns_V : loc;
  ns_VV : option loc
}.

(** The notebook's own parameters. *)
Definition notebook_sizek : Z := 3000.
Definition notebook_betafirm : f64 := of_ratio 96 100.

(** ** Cell 1: initialisation and the interpreted loop

    The cell fixes [sizek = 3000] and [betafirm = 0.96]; both are taken as
    parameters here. *)
Definition initialize_grid (sizek : Z) (betafirm : f64) : M namespace :=
  Vmat <- np_zeros2 sizek sizek ;;
  e <- np_zeros2 sizek sizek ;;
  V <- np_zeros1 sizek ;;
  ret (Namespace sizek betafirm Vmat e V None).

Definition naive_update (ns : namespace) : M unit :=
  for_each (range (ns_sizek ns)) (fun i =>
    for_each (range (ns_sizek ns)) (fun j =>
      eij <- mat_getitem (ns_e ns) i j ;;
      vj <- vec_getitem (ns_V ns) j ;;
      mat_setitem (ns_Vmat ns) i j (add eij (mul (ns_betafirm ns) vj)))).

Definition cell1 (sizek : Z) (betafirm : f64) : M namespace :=
  ns <- initialize_grid sizek betafirm ;;
  naive_update ns ;;
  ret ns.

(** ** Cell 3: the vectorised update

    [np.reshape] yields a view and the product [betafirm * VV] a temporary;
    [np.tile] and the sum are new arrays, bound to [VV] and [Vmat]. *)
Definition vectorized_update (ns : namespace) : M namespace :=
  v <- get_vec (ns_V ns) ;;
  row <- np_reshape_row v (ns_sizek ns) ;;
  tiled <- np_tile_rows row (ns_sizek ns) ;;
  VV <- alloc_mat tiled ;;
  em <- get_mat (ns_e ns) ;;
  vv <- get_mat VV ;;
  sum <- mat_add em (scalar_mul (ns_betafirm ns) vv) ;;
  Vmat <- alloc_mat sum ;;
  ret (Namespace (ns_sizek ns) (ns_betafirm ns) Vmat (ns_e ns) (ns_V ns) (Some VV)).

(** ** Specification-level functions

    Pure descriptions of what the loops leave in the output buffer; the
    theorems below relate the effectful code to them. *)

(** The entry of a matrix as an optional value, by natural indices. *)
Definition mat_lookup (m : matrix) (i j : nat) : option f64 :=
  r ← mrows m !! i; r !! j.

(** The value the update assigns to position [(i, j)]. *)
Definition update_entry (betafirm : f64) (me : matrix) (vV : vector) (i j : nat) : f64 :=
  add (mat_entry me i j) (mul betafirm (default nan (vV !! j))).

(** [m] with the entries selected by [p] replaced by [f]. *)
Definition mat_update_where (p : nat -> nat -> bool) (f : nat -> nat -> f64)
    (m : matrix) : matrix :=
  Matrix (ncols m)
    (imap (fun a r => imap (fun b x => if p a b then f a b else x) r) (mrows m)).

(** The positions already written when the loops over [range(N)] stand at
    row [i], column [k]: rows before [i] and, in row [i], columns before
    [k]. *)
Definition written (N i k a b : nat) : bool :=
  (b <? N)%nat && ((a <? i)%nat || ((a =? i)%nat && (b <? k)%nat)).

(** Every index of [range(N)] is within all five indexed axes. *)
Definition fits (N : nat) (vV : vector) (me mV : matrix) : Prop :=
  (N <= length vV)%nat /\
  (N <= nrows me)%nat /\ (N <= ncols me)%nat /\
  (N <= nrows mV)%nat /\ (N <= ncols mV)%nat.

#[global] Instance fits_dec N vV me mV : Decision (fits N vV me mV).
Proof. unfold fits. apply _. Defined.

(** Position [(i, j)] is within the axes the loop body indexes. *)
Definition in_bounds (vV : vector) (me mV : matrix) (i j : nat) : Prop :=
  (j < length vV)%nat /\
  (i < nrows me)%nat /\ (j < ncols me)%nat /\
  (i < nrows mV)%nat /\ (j < ncols mV)%nat.

#[global] Instance in_bounds_dec vV me mV i j : Decision (in_bounds vV me mV i j).
Proof. unfold in_bounds. apply _. Defined.

(** The body of the double loop, as it stands in cells 1 and 5. *)
Definition loop_body (V e Vmat : loc) (betafirm : f64) (i j : Z) : M unit :=
  eij <- mat_getitem e i j ;;
  vj <- vec_getitem V j ;;
  mat_setitem Vmat i j (add eij (mul betafirm vj)).

(** The store when the loops over [range(N)], started in [Store vs ms] with
    [mV] in the output buffer, stand at row [i], column [k]. *)
Definition state_at (Vmat : loc) (betafirm : f64) (N : nat)
    (vs : gmap loc (list f64)) (ms : gmap loc matrix)
    (vV : vector) (me mV : matrix) (i k : nat) : store :=
  Store vs (<[Vmat := mat_update_where (written N i k)
                        (update_entry betafirm me vV) mV]> ms).

(** [mV'] holds [e[i][j] + betafirm * V[j]] at every position of the
    [N]-by-[N] grid, read through the code's own indexing. *)
Definition updated (betafirm : f64) (N : nat) (vV : vector) (me mV' : matrix) : Prop :=
  forall i j : Z, 0 <= i < Z.of_nat N -> 0 <= j < Z.of_nat N ->
    exists x v, mat_item me i j = Some x /\ vec_item vV j = Some v /\
                mat_item mV' i j = Some (add x (mul betafirm v)).

(** A well-formed [r]-by-[c] matrix. *)
Definition has_shape (r c : nat) (m : matrix) : Prop :=
  mat_wf m /\ shape m = (r, c).

(** [st'] differs from [st] at most in the matrix stored at [a]. *)
Definition only_writes (a : loc) (st st' : store) : Prop :=
  vecs st' = vecs st /\ forall l, l <> a -> mats st' !! l = mats st !! l.

(** [st'] has every array of [st], unchanged, and possibly new matrices. *)
Definition only_allocates (st st' : store) : Prop :=
  vecs st' = vecs st /\ forall l m, mats st !! l = Some m -> mats st' !! l = Some m.

(** Every run of [c], normal or exceptional, relates the store it starts in
    to the store it ends in by [R]. *)
Definition respects {A} (R : store -> store -> Prop) (c : M A) : Prop :=
  forall st r st', c st = (r, st') -> R st st'.

(** ** Test data

    The scenario of the specification: [N = 3], [betafirm = 0.96], [e] all
    zeros and [V = [1, 2, 3]].  Object 1 of the matrix heap is the output
    buffer, object 2 is [e]. *)
Definition scenario_V : vector := [of_Z 1; of_Z 2; of_Z 3].

Definition scenario_store : store :=
  Store {[ 1%positive := scenario_V ]}
        {[ 1%positive := mat_zeros 3 3; 2%positive := mat_zeros 3 3 ]}.

Definition scenario_ns : namespace :=
  Namespace 3 (of_ratio 96 100) 1%positive 2%positive 1%positive None.

Definition scenario_row : vector :=
  [of_ratio 96 100; of_ratio 192 100; of_ratio 288 100].

Definition scenario_result : matrix :=
  Matrix 3 [scenario_row; scenario_row; scenario_row].

(** ** Comparing two result matrices

    [np.max(np.abs(a - b))]: the maximum propagates a NaN, and the maximum
    of an empty array is an error. *)
Definition fmax (x y : f64) : f64 :=
  match x, y with
  | S754_nan, _ | _, S754_nan => nan
  | _, _ => if ltb x y then y else x
  end.

Definition abs_diffs (a b : matrix) : vector :=
  mjoin (zip_with (zip_with (fun x y => abs (sub x y))) (mrows a) (mrows b)).

Definition max_abs_diff (a b : matrix) : option f64 :=
  match abs_diffs a b with
  | [] => None
  | d :: ds => Some (foldl fmax d ds)
  end.

(** The tolerance [1e-9]. *)
Definition tolerance : f64 := of_ratio 1 1000000000.

(** Every entry is real-valued. *)
Definition all_finite (m : matrix) : bool := forallb (forallb is_finite) (mrows m).

(** The dimensions are not the [N], [N]-by-[N], [N]-by-[N] of the contract. *)
Definition mismatched (N : nat) (vV : vector) (me mV : matrix) : Prop :=
  ~ (length vV = N /\ shape me = (N, N) /\ shape mV = (N, N)).

(** As [scenario_store], with an [e] of shape [(3, 5)]. *)
Definition wide_store : store :=
  Store {[ 1%positive := scenario_V ]}
        {[ 1%positive := mat_zeros 3 3; 2%positive := mat_zeros 3 5 ]}.

(** As [scenario_store], with an [e] of shape [(2, 3)]. *)
Definition short_store : store :=
  Store {[ 1%positive := scenario_V ]}
        {[ 1%positive := mat_zeros 3 3; 2%positive := mat_zeros 2 3 ]}.

(** A length-[N] vector, an [N]-by-[N] matrix, of zeros. *)
Definition zero_vector (N : nat) (v : vector) : Prop :=
  length v = N /\ Forall (eq zero) v.

Definition zero_matrix (N : nat) (m : matrix) : Prop :=
  has_shape N N m /\ Forall (Forall (eq zero)) (mrows m).

(** ** Calling an update twice

    [call_fresh update N]: allocate a zeroed [N]-by-[N] output buffer and
    run [update] on it.  [twice c]: run [c], then run it again. *)
Definition call_fresh (update : loc -> M loc) (N : Z) : M loc :=
  buf <- np_zeros2 N N ;; update buf.

Definition twice {A} (c : M A) : M (A * A) :=
  a <- c ;; b <- c ;; ret (a, b).

(** The largest finite binary64 number, [(2^53 - 1) * 2^971]. *)
Definition max_float : f64 := S754_finite false (2 ^ 53 - 1) 971.

(** ** Cell 7 and the notebook as a whole

    Cell 7 is [Vmat = VFI_loop(V, e, betafirm, sizek, Vmat)] on the global
    names as cells 1 and 3 left them.  Run top to bottom, the notebook is
    cell 1, cell 3, cell 7 (cell 5 only defines [VFI_loop]; the timing
    prints are left out). *)
Definition cell7 (ns : namespace) : M namespace :=
  Vmat <- VFI_loop (ns_V ns) (ns_e ns) (ns_betafirm ns) (ns_sizek ns) (ns_Vmat ns) ;;
  ret (Namespace (ns_sizek ns) (ns_betafirm ns) Vmat (ns_e ns) (ns_V ns) (ns_VV ns)).

Definition notebook (sizek : Z) (betafirm : f64) : M namespace :=
  ns1 <- cell1 sizek betafirm ;;
  ns3 <- vectorized_update ns1 ;;
  cell7 ns3.



(** Every array of [st] is in [st'], unchanged; [st'] may have more. *)
Definition extends (st st' : store) : Prop :=
  (forall l v, vecs st !! l = Some v -> vecs st' !! l = Some v) /\
  (forall l m, mats st !! l = Some m -> mats st' !! l = Some m).


(** ** Proof automation *)

(** Case analysis on every boolean comparison of naturals in the goal. *)
Ltac nat_cases :=
  repeat match goal with
    | |- context [(?a <? ?b)%nat] => destruct (Nat.ltb_spec a b)
    | |- context [(?a =? ?b)%nat] => destruct (Nat.eqb_spec a b)
    end;
  cbn; try reflexivity; try lia.

(** * Verification *)

(** ** The monad and the loop combinator *)

Section Loops.
Context {A : Type}.
Implicit Types (l : list A) (body : A -> M unit).

Lemma for_each_nil body st : for_each [] body st = (Ok tt, st).
Proof. reflexivity. Qed.

Lemma for_each_cons_ok x l body st st' :
  body x st = (Ok tt, st') ->
  for_each (x :: l) body st = for_each l body st'.
Proof. intros H. cbn. unfold bind. by rewrite H. Qed.

Lemma for_each_cons_raise x l body st st' err :
  body x st = (Raise err, st') ->
  for_each (x :: l) body st = (Raise err, st').
Proof. intros H. cbn. unfold bind. by rewrite H. Qed.

(** Two loop bodies that agree on the elements of the list run alike. *)
Lemma for_each_ext l body1 body2 :
  (forall x st, x ∈ l -> body1 x st = body2 x st) ->
  forall st, for_each l body1 st = for_each l body2 st.
Proof.
  induction l as [|x l IH]; intros Hb st; [done|].
  cbn. unfold bind. rewrite Hb by left.
  destruct (body2 x st) as [[[]|err] st']; [|done].
  apply IH. intros y s Hy. apply Hb. by right.
Qed.
End Loops.

(** ** Indexing lemmas *)

Lemma norm_index_nat (n i : nat) :
  (i < n)%nat -> norm_index n (Z.of_nat i) = Some i.
Proof.
  intros H. unfold norm_index.
  replace (0 <=? Z.of_nat i) with true by (symmetry; apply Z.leb_le; lia).
  replace (Z.of_nat i <? Z.of_nat n) with true by (symmetry; apply Z.ltb_lt; lia).
  cbn. by rewrite Nat2Z.id.
Qed.

Lemma norm_index_ge (n i : nat) :
  (n <= i)%nat -> norm_index n (Z.of_nat i) = None.
Proof.
  intros H. unfold norm_index.
  replace (Z.of_nat i <? Z.of_nat n) with false by (symmetry; apply Z.ltb_ge; lia).
  replace (Z.of_nat i <? 0) with false by (symmetry; apply Z.ltb_ge; lia).
  by rewrite !andb_false_r.
Qed.

Lemma norm_index_lt (n : nat) (i : Z) (k : nat) :
  norm_index n i = Some k -> (k < n)%nat.
Proof.
  unfold norm_index. intros H.
  destruct ((0 <=? i) && (i <? Z.of_nat n)) eqn:E1.
  - apply andb_prop in E1 as [?%Z.leb_le ?%Z.ltb_lt]. simplify_eq. lia.
  - destruct ((- Z.of_nat n <=? i) && (i <? 0)) eqn:E2; [|done].
    apply andb_prop in E2 as [?%Z.leb_le ?%Z.ltb_lt]. simplify_eq. lia.
Qed.

Lemma range_of_nat (n : nat) : range (Z.of_nat n) = Z.of_nat <$> seq 0 n.
Proof. unfold range. by rewrite Nat2Z.id. Qed.

Lemma range_nonpos (z : Z) : z <= 0 -> range z = [].
Proof. intros H. unfold range. by replace (Z.to_nat z) with 0%nat by lia. Qed.

Lemma mat_wf_row m i r : mat_wf m -> mrows m !! i = Some r -> length r = ncols m.
Proof. intros Hwf Hr. eapply (Forall_lookup_1 _ _ _ _ Hwf Hr). Qed.

Lemma mat_lookup_is_Some m i j :
  mat_wf m -> (i < nrows m)%nat -> (j < ncols m)%nat ->
  mat_lookup m i j = Some (mat_entry m i j).
Proof.
  intros Hwf Hi Hj. unfold mat_entry, mat_lookup.
  destruct (lookup_lt_is_Some_2 (mrows m) i Hi) as [r Hr]. rewrite Hr. cbn.
  assert (Hlen := mat_wf_row _ _ _ Hwf Hr).
  destruct (lookup_lt_is_Some_2 r j) as [x Hx]; [lia|]. by rewrite Hx.
Qed.

Lemma mat_item_nat m i j :
  mat_wf m -> (i < nrows m)%nat -> (j < ncols m)%nat ->
  mat_item m (Z.of_nat i) (Z.of_nat j) = Some (mat_entry m i j).
Proof.
  intros Hwf Hi Hj. unfold mat_item.
  rewrite !norm_index_nat by done. cbn.
  by apply mat_lookup_is_Some.
Qed.

Lemma vec_item_nat (v : vector) (j : nat) x :
  v !! j = Some x -> vec_item v (Z.of_nat j) = Some x.
Proof.
  intros H. unfold vec_item.
  rewrite norm_index_nat by (by eapply lookup_lt_Some). done.
Qed.

(** ** Matrices updated in place *)

Section UpdateWhere.
Variables (p : nat -> nat -> bool) (f : nat -> nat -> f64) (m : matrix).

Lemma nrows_update_where : nrows (mat_update_where p f m) = nrows m.
Proof. unfold nrows. cbn. by rewrite length_imap. Qed.

Lemma ncols_update_where : ncols (mat_update_where p f m) = ncols m.
Proof. reflexivity. Qed.

Lemma mat_wf_update_where : mat_wf m -> mat_wf (mat_update_where p f m).
Proof.
  intros Hwf. unfold mat_wf. cbn. apply Forall_lookup_2. intros a r Hr.
  rewrite list_lookup_imap in Hr.
  destruct (mrows m !! a) as [r0|] eqn:E; simplify_eq/=.
  rewrite length_imap. by eapply mat_wf_row.
Qed.

Lemma mat_lookup_update_where a b :
  mat_lookup (mat_update_where p f m) a b =
  (fun x => if p a b then f a b else x) <$> mat_lookup m a b.
Proof.
  unfold mat_lookup. cbn. rewrite list_lookup_imap.
  destruct (mrows m !! a) as [r|]; cbn; [|done].
  by rewrite list_lookup_imap.
Qed.

Lemma mat_entry_update_where a b :
  mat_wf m -> (a < nrows m)%nat -> (b < ncols m)%nat ->
  mat_entry (mat_update_where p f m) a b =
  if p a b then f a b else mat_entry m a b.
Proof.
  intros Hwf Ha Hb.
  assert (H := mat_lookup_update_where a b).
  rewrite (mat_lookup_is_Some m) in H by done.
  rewrite mat_lookup_is_Some in H;
    [|by apply mat_wf_update_where|by rewrite nrows_update_where|done].
  by simplify_eq/=.
Qed.
End UpdateWhere.

Lemma mat_update_where_ext p q f m :
  (forall a b, p a b = q a b) -> mat_update_where p f m = mat_update_where q f m.
Proof.
  intros H. unfold mat_update_where. f_equal.
  apply imap_ext. intros a r _. apply imap_ext. intros b x _. by rewrite H.
Qed.

Lemma mat_update_where_none f m :
  mat_update_where (fun _ _ => false) f m = m.
Proof.
  destruct m as [c rows]. unfold mat_update_where. cbn. f_equal.
  apply list_eq. intros a. rewrite list_lookup_imap.
  destruct (rows !! a) as [r|]; cbn; [|done]. f_equal.
  apply list_eq. intros b. rewrite list_lookup_imap.
  by destruct (r !! b).
Qed.

(** Storing [f i j] at [(i, j)] adds that position to the selection. *)
Lemma mat_store_update_where p q f m (i j : nat) :
  mat_wf m -> (i < nrows m)%nat -> (j < ncols m)%nat ->
  (forall a b, q a b = p a b || ((a =? i)%nat && (b =? j)%nat)) ->
  mat_store (mat_update_where p f m) (Z.of_nat i) (Z.of_nat j) (f i j)
  = Some (mat_update_where q f m).
Proof.
  intros Hwf Hi Hj Hq. unfold mat_store.
  rewrite nrows_update_where, ncols_update_where.
  rewrite !norm_index_nat by done. cbn.
  destruct (lookup_lt_is_Some_2 (mrows m) i Hi) as [r Hr].
  assert (Hlen := mat_wf_row _ _ _ Hwf Hr).
  rewrite list_lookup_imap, Hr. cbn.
  rewrite length_imap. rewrite decide_True by lia.
  f_equal. unfold mat_update_where. f_equal.
  apply list_eq. intros a.
  destruct (decide (a = i)) as [->|Hne].
  - rewrite list_lookup_insert_eq by (rewrite length_imap; done).
    rewrite list_lookup_imap, Hr. cbn. f_equal.
    apply list_eq. intros b.
    destruct (decide (b = j)) as [->|Hnb].
    + rewrite list_lookup_insert_eq by (rewrite length_imap; lia).
      rewrite list_lookup_imap.
      destruct (lookup_lt_is_Some_2 r j) as [x Hx]; [lia|]. rewrite Hx. cbn.
      by rewrite Hq, !Nat.eqb_refl, orb_true_r.
    + rewrite list_lookup_insert_ne by done.
      rewrite !list_lookup_imap. destruct (r !! b); cbn; [|done].
      rewrite Hq. replace (b =? j)%nat with false by (symmetry; by apply Nat.eqb_neq).
      by rewrite andb_false_r, orb_false_r.
  - rewrite list_lookup_insert_ne by done.
    rewrite !list_lookup_imap. destruct (mrows m !! a) as [r'|]; cbn; [|done].
    f_equal. apply imap_ext. intros b x _. rewrite Hq.
    replace (a =? i)%nat with false by (symmetry; by apply Nat.eqb_neq).
    by rewrite orb_false_r.
Qed.

Lemma written_start N a b : written N 0 0 a b = false.
Proof. unfold written. nat_cases. Qed.

Lemma written_next_row N i a b : written N i N a b = written N (S i) 0 a b.
Proof. unfold written. nat_cases. Qed.

Lemma written_next_col N i k a b :
  (k < N)%nat ->
  written N i (S k) a b = written N i k a b || ((a =? i)%nat && (b =? k)%nat).
Proof. intros H. unfold written. nat_cases. Qed.

Lemma written_all N a b : written N N 0 a b = ((a <? N)%nat && (b <? N)%nat).
Proof. unfold written. nat_cases. Qed.

(** ** The double loop, one step at a time *)

Section UpdateLoop.
Variables (V e Vmat : loc) (betafirm : f64) (N : nat).
Variables (vs : gmap loc (list f64)) (ms : gmap loc matrix).
Variables (vV : vector) (me mV : matrix).
Hypothesis HV : vs !! V = Some vV.
Hypothesis He : ms !! e = Some me.
Hypothesis HVmat : ms !! Vmat = Some mV.
Hypothesis Hwfe : mat_wf me.
Hypothesis HwfV : mat_wf mV.

Local Abbreviation state := (state_at Vmat betafirm N vs ms vV me mV).
Local Abbreviation body := (loop_body V e Vmat betafirm).
Local Abbreviation ok := (in_bounds vV me mV).

Lemma written_here i k : written N i k i k = false.
Proof using Type. unfold written. nat_cases. Qed.

(** The matrix [e] denotes in [state i k], and what it holds at [(i, k)]. *)
Lemma lookup_e i k :
  exists m, mats (state i k) !! e = Some m /\
    mat_wf m /\ nrows m = nrows me /\ ncols m = ncols me /\
    ((i < nrows me)%nat -> (k < ncols me)%nat -> mat_entry m i k = mat_entry me i k).
Proof using He HVmat Hwfe HwfV.
  unfold state_at. cbn. destruct (decide (e = Vmat)) as [->|Hne].
  - assert (me = mV) as -> by congruence. eexists. rewrite lookup_insert_eq.
    split; [done|]. split; [by apply mat_wf_update_where|].
    split; [apply nrows_update_where|]. split; [done|].
    intros Hi Hk. rewrite mat_entry_update_where by done.
    by rewrite written_here.
  - exists me. by rewrite lookup_insert_ne.
Qed.

Lemma read_e i k :
  (i < nrows me)%nat -> (k < ncols me)%nat ->
  mat_getitem e (Z.of_nat i) (Z.of_nat k) (state i k)
  = (Ok (mat_entry me i k), state i k).
Proof using He HVmat Hwfe HwfV.
  intros Hi Hk. destruct (lookup_e i k) as (m & Hm & Hwf & Hr & Hc & Hx).
  unfold mat_getitem, bind, get_mat. rewrite Hm.
  rewrite mat_item_nat by (done || lia). by rewrite Hx.
Qed.

Lemma read_e_raise i k :
  ~ ((i < nrows me)%nat /\ (k < ncols me)%nat) ->
  mat_getitem e (Z.of_nat i) (Z.of_nat k) (state i k)
  = (Raise IndexError, state i k).
Proof using He HVmat Hwfe HwfV.
  intros Hbad. destruct (lookup_e i k) as (m & Hm & Hwf & Hr & Hc & _).
  unfold mat_getitem, bind, get_mat. rewrite Hm.
  unfold mat_item. rewrite Hr, Hc.
  destruct (decide (i < nrows me)%nat).
  - rewrite (norm_index_nat (nrows me) i) by done. cbn.
    rewrite norm_index_ge by lia. done.
  - rewrite (norm_index_ge (nrows me) i) by lia. done.
Qed.

Lemma read_V st k :
  vecs st = vs -> (k < length vV)%nat ->
  vec_getitem V (Z.of_nat k) st = (Ok (default nan (vV !! k)), st).
Proof using HV.
  intros Hvs Hk.
  unfold vec_getitem, bind, get_vec. rewrite Hvs, HV.
  destruct (lookup_lt_is_Some_2 vV k) as [x Hx]; [lia|].
  rewrite (vec_item_nat _ _ x Hx), Hx. done.
Qed.

Lemma read_V_raise st k :
  vecs st = vs -> (length vV <= k)%nat ->
  vec_getitem V (Z.of_nat k) st = (Raise IndexError, st).
Proof using HV.
  intros Hvs Hk.
  unfold vec_getitem, bind, get_vec. rewrite Hvs, HV.
  unfold vec_item. by rewrite norm_index_ge.
Qed.

Lemma body_step i k :
  (k < N)%nat -> ok i k ->
  body (Z.of_nat i) (Z.of_nat k) (state i k) = (Ok tt, state i (S k)).
Proof using All.
  intros Hk (? & ? & ? & ? & ?). unfold loop_body, bind at 1.
  rewrite read_e by done. unfold bind at 1.
  rewrite read_V by done.
  unfold mat_setitem, bind, get_mat, state_at. cbn.
  rewrite lookup_insert_eq.
  change (add (mat_entry me i k) (mul betafirm (default nan (vV !! k))))
    with (update_entry betafirm me vV i k).
  rewrite (mat_store_update_where _ (written N i (S k))); try done.
  - cbn. unfold put_mat. cbn. by rewrite insert_insert_eq.
  - intros a b. by apply written_next_col.
Qed.

(** An out-of-bounds position raises at once and writes nothing. *)
Lemma body_raise i k :
  ~ ok i k ->
  body (Z.of_nat i) (Z.of_nat k) (state i k) = (Raise IndexError, state i k).
Proof using All.
  intros Hbad. unfold loop_body, bind at 1.
  destruct (decide ((i < nrows me)%nat /\ (k < ncols me)%nat)) as [[? ?]|Hne];
    [|by rewrite read_e_raise].
  rewrite read_e by done. unfold bind at 1.
  destruct (decide (k < length vV)%nat) as [?|Hnv];
    [|by rewrite read_V_raise by (done || lia)].
  rewrite read_V by done.
  unfold mat_setitem, bind, get_mat, state_at. cbn.
  rewrite lookup_insert_eq.
  assert (~ ((i < nrows mV)%nat /\ (k < ncols mV)%nat)) as HbadV
    by (unfold in_bounds in Hbad; tauto).
  unfold mat_store. rewrite nrows_update_where, ncols_update_where.
  destruct (decide (i < nrows mV)%nat).
  - rewrite (norm_index_nat (nrows mV) i) by done. cbn.
    rewrite norm_index_ge by lia. done.
  - rewrite (norm_index_ge (nrows mV) i) by lia. done.
Qed.

Lemma inner_loop i n : forall k,
  (k + n <= N)%nat ->
  (forall j, (k <= j < k + n)%nat -> ok i j) ->
  for_each (Z.of_nat <$> seq k n) (body (Z.of_nat i)) (state i k)
  = (Ok tt, state i (k + n)).
Proof using All.
  induction n as [|n IH]; intros k Hk Hok.
  - cbn. unfold ret. by rewrite Nat.add_0_r.
  - cbn [seq fmap list_fmap].
    erewrite for_each_cons_ok by (apply body_step; [lia|apply Hok; lia]).
    replace (k + S n)%nat with (S k + n)%nat by lia.
    apply IH; [lia|]. intros j Hj. apply Hok. lia.
Qed.

Lemma inner_loop_raise i n : forall k k',
  (k <= k' < k + n)%nat -> (k + n <= N)%nat ->
  (forall j, (k <= j < k')%nat -> ok i j) ->
  ~ ok i k' ->
  for_each (Z.of_nat <$> seq k n) (body (Z.of_nat i)) (state i k)
  = (Raise IndexError, state i k').
Proof using All.
  induction n as [|n IH]; intros k k' Hk' Hk Hok Hbad; [lia|].
  cbn [seq fmap list_fmap].
  destruct (decide (k = k')) as [->|Hne].
  - by erewrite for_each_cons_raise by (by apply body_raise).
  - erewrite for_each_cons_ok by (apply body_step; [lia|apply Hok; lia]).
    apply IH; [lia|lia| |done]. intros j Hj. apply Hok. lia.
Qed.

Lemma row_done i : state i N = state (S i) 0.
Proof using Type.
  unfold state_at. do 2 f_equal.
  apply mat_update_where_ext. intros a b. apply written_next_row.
Qed.

Lemma outer_loop n : forall i,
  (forall a b, (i <= a < i + n)%nat -> (b < N)%nat -> ok a b) ->
  for_each (Z.of_nat <$> seq i n)
    (fun i' => for_each (range (Z.of_nat N)) (body i')) (state i 0)
  = (Ok tt, state (i + n) 0).
Proof using All.
  induction n as [|n IH]; intros i Hok.
  - cbn. unfold ret. by rewrite Nat.add_0_r.
  - cbn [seq fmap list_fmap].
    erewrite for_each_cons_ok.
    + replace (i + S n)%nat with (S i + n)%nat by lia.
      apply IH. intros a b Ha Hb. apply Hok; lia.
    + rewrite range_of_nat, <- row_done.
      apply (inner_loop i N 0%nat); [lia|]. intros j Hj. apply Hok; lia.
Qed.

Lemma outer_loop_raise n : forall i i' k',
  (i <= i' < i + n)%nat -> (k' < N)%nat ->
  (forall a b, (i <= a < i')%nat -> (b < N)%nat -> ok a b) ->
  (forall b, (b < k')%nat -> ok i' b) ->
  ~ ok i' k' ->
  for_each (Z.of_nat <$> seq i n)
    (fun i' => for_each (range (Z.of_nat N)) (body i')) (state i 0)
  = (Raise IndexError, state i' k').
Proof using All.
  induction n as [|n IH]; intros i i' k' Hi' Hk' Hrows Hrow Hbad; [lia|].
  cbn [seq fmap list_fmap].
  destruct (decide (i = i')) as [->|Hne].
  - erewrite for_each_cons_raise; [done|].
    rewrite range_of_nat.
    apply (inner_loop_raise i' N 0%nat k'); [lia|lia| |done].
    intros j Hj. apply Hrow. lia.
  - erewrite for_each_cons_ok.
    + apply IH; [lia|done| |done|done]. intros a b Ha Hb. apply Hrows; lia.
    + rewrite range_of_nat, <- row_done.
      apply (inner_loop i N 0%nat); [lia|]. intros j Hj. apply Hrows; lia.
Qed.

Lemma state_at_start : state 0 0 = Store vs ms.
Proof using HVmat.
  unfold state_at. f_equal.
  rewrite (mat_update_where_ext _ (fun _ _ => false)) by apply written_start.
  rewrite mat_update_where_none. by apply insert_id.
Qed.

(** The closed form of a run on arrays that are large enough. *)
Lemma loops_run :
  fits N vV me mV ->
  for_each (range (Z.of_nat N))
    (fun i => for_each (range (Z.of_nat N)) (body i)) (Store vs ms)
  = (Ok tt,
     Store vs (<[Vmat := mat_update_where
                           (fun a b => (a <? N)%nat && (b <? N)%nat)
                           (update_entry betafirm me vV) mV]> ms)).
Proof using All.
  intros (? & ? & ? & ? & ?).
  rewrite <- state_at_start. rewrite range_of_nat at 1.
  rewrite outer_loop by (intros a b Ha Hb; unfold in_bounds; lia).
  f_equal. unfold state_at. do 2 f_equal.
  apply mat_update_where_ext. apply written_all.
Qed.

(** A run that meets an out-of-bounds position stops there. *)
Lemma loops_raise i k :
  (i < N)%nat -> (k < N)%nat ->
  (forall a b, (a < i)%nat -> (b < N)%nat -> ok a b) ->
  (forall b, (b < k)%nat -> ok i b) ->
  ~ ok i k ->
  for_each (range (Z.of_nat N))
    (fun i => for_each (range (Z.of_nat N)) (body i)) (Store vs ms)
  = (Raise IndexError, state i k).
Proof using All.
  intros Hi Hk Hrows Hrow Hbad.
  rewrite <- state_at_start. rewrite range_of_nat at 1.
  apply outer_loop_raise; try done; try lia.
  intros a b Ha Hb. apply Hrows; lia.
Qed.

(** When the arrays do not fit, there is a first offending position. *)
Lemma first_offence :
  ~ fits N vV me mV ->
  exists i k, (i < N)%nat /\ (k < N)%nat /\
    (forall a b, (a < i)%nat -> (b < N)%nat -> ok a b) /\
    (forall b, (b < k)%nat -> ok i b) /\
    ~ ok i k.
Proof using Type.
  intros Hnf. unfold fits in Hnf.
  set (R := (nrows me `min` nrows mV)%nat).
  set (C := (length vV `min` (ncols me `min` ncols mV))%nat).
  destruct (decide (N <= C)%nat) as [HC|HC].
  - exists R, 0%nat. unfold in_bounds. repeat split; try lia.
  - destruct (decide (R = 0)%nat) as [HR|HR].
    + exists 0%nat, 0%nat. unfold in_bounds. repeat split; try lia.
    + exists 0%nat, C. unfold in_bounds. repeat split; try lia.
Qed.
End UpdateLoop.

(** ** Matrices built from a function *)

Lemma nrows_init r c f : nrows (mat_init r c f) = r.
Proof. unfold nrows. cbn. by rewrite length_fmap, length_seq. Qed.

Lemma mat_wf_init r c f : mat_wf (mat_init r c f).
Proof.
  unfold mat_wf. cbn. apply Forall_fmap, Forall_forall. intros i _. cbn.
  by rewrite length_fmap, length_seq.
Qed.

Lemma has_shape_init r c f : has_shape r c (mat_init r c f).
Proof. split; [apply mat_wf_init|]. unfold shape. by rewrite nrows_init. Qed.

Lemma mat_lookup_init r c f i j :
  (i < r)%nat -> (j < c)%nat -> mat_lookup (mat_init r c f) i j = Some (f i j).
Proof.
  intros Hi Hj. unfold mat_lookup. cbn.
  rewrite list_lookup_fmap, lookup_seq_lt by done. cbn.
  by rewrite list_lookup_fmap, lookup_seq_lt.
Qed.

Lemma mat_entry_init r c f i j :
  (i < r)%nat -> (j < c)%nat -> mat_entry (mat_init r c f) i j = f i j.
Proof.
  intros Hi Hj. assert (H := mat_lookup_init r c f i j Hi Hj).
  unfold mat_entry. unfold mat_lookup in H. by rewrite H.
Qed.

Lemma mat_init_ext r c f g :
  (forall i j, (i < r)%nat -> (j < c)%nat -> f i j = g i j) ->
  mat_init r c f = mat_init r c g.
Proof.
  intros H. unfold mat_init. f_equal.
  apply list_eq. intros i. rewrite !list_lookup_fmap.
  destruct (seq 0 r !! i) as [a|] eqn:Ea; cbn; [|done].
  apply lookup_seq in Ea as [-> Hi]. f_equal.
  apply list_eq. intros j. rewrite !list_lookup_fmap.
  destruct (seq 0 c !! j) as [b|] eqn:Eb; cbn; [|done].
  apply lookup_seq in Eb as [-> Hj]. f_equal. by apply H.
Qed.

(** Overwriting the whole of an [N]-by-[N] buffer leaves nothing of it. *)
Lemma mat_update_where_full N f m :
  has_shape N N m ->
  mat_update_where (fun a b => (a <? N)%nat && (b <? N)%nat) f m = mat_init N N f.
Proof.
  intros [Hwf Hsh]. destruct m as [c rows]. unfold shape, nrows in Hsh.
  cbn in Hsh. simplify_eq. unfold mat_update_where, mat_init. cbn -[Nat.ltb]. f_equal.
  apply list_eq. intros a. rewrite list_lookup_imap, list_lookup_fmap.
  destruct (decide (a < length rows)%nat) as [Ha|Ha].
  - destruct (lookup_lt_is_Some_2 rows a Ha) as [r Hr]. rewrite Hr.
    rewrite lookup_seq_lt by done. cbn -[Nat.ltb]. f_equal.
    assert (Hlen : length r = length rows)
      by apply (mat_wf_row (Matrix (length rows) rows) a r Hwf Hr).
    apply list_eq. intros b. rewrite list_lookup_imap, list_lookup_fmap.
    destruct (decide (b < length rows)%nat) as [Hb|Hb].
    + destruct (lookup_lt_is_Some_2 r b) as [x Hx]; [lia|]. rewrite Hx.
      rewrite lookup_seq_lt by done. cbn -[Nat.ltb]. f_equal. nat_cases.
    + rewrite lookup_ge_None_2 by lia. by rewrite lookup_seq_ge by lia.
  - rewrite lookup_ge_None_2 by lia. by rewrite lookup_seq_ge by lia.
Qed.

(** ** The two loops, whole *)

Lemma VFI_loop_unfold V e betafirm sizek Vmat :
  VFI_loop V e betafirm sizek Vmat =
  (for_each (range sizek)
     (fun i => for_each (range sizek) (loop_body V e Vmat betafirm i)) ;;
   ret Vmat).
Proof. reflexivity. Qed.

Lemma naive_update_unfold ns :
  naive_update ns =
  for_each (range (ns_sizek ns))
    (fun i => for_each (range (ns_sizek ns))
                (loop_body (ns_V ns) (ns_e ns) (ns_Vmat ns) (ns_betafirm ns) i)).
Proof. reflexivity. Qed.

(** The body of the function of cell 5 is the text of the loop of cell 1:
    as embedded, with the meaning of that text, they are the same
    computation. *)
Lemma VFI_loop_naive_update ns st :
  VFI_loop (ns_V ns) (ns_e ns) (ns_betafirm ns) (ns_sizek ns) (ns_Vmat ns) st
  = (naive_update ns ;; ret (ns_Vmat ns)) st.
Proof. reflexivity. Qed.

Lemma naive_update_of_VFI_loop ns st st' :
  VFI_loop (ns_V ns) (ns_e ns) (ns_betafirm ns) (ns_sizek ns) (ns_Vmat ns) st
  = (Ok (ns_Vmat ns), st') ->
  naive_update ns st = (Ok tt, st').
Proof.
  rewrite VFI_loop_naive_update. unfold bind.
  destruct (naive_update ns st) as [[[]|err] s1]; unfold ret; intros H;
    by simplify_eq.
Qed.

Section WholeRun.
Variables (V e Vmat : loc) (betafirm : f64) (N : nat) (st : store).
Variables (vV : vector) (me mV : matrix).
Hypothesis HV : vecs st !! V = Some vV.
Hypothesis He : mats st !! e = Some me.
Hypothesis HVmat : mats st !! Vmat = Some mV.
Hypothesis Hwfe : mat_wf me.
Hypothesis HwfV : mat_wf mV.

(** On arrays that are large enough the run writes the leading
    [N]-by-[N] block of the buffer and returns the buffer. *)
Lemma VFI_loop_fits :
  fits N vV me mV ->
  VFI_loop V e betafirm (Z.of_nat N) Vmat st
  = (Ok Vmat,
     Store (vecs st)
       (<[Vmat := mat_update_where (fun a b => (a <? N)%nat && (b <? N)%nat)
                    (update_entry betafirm me vV) mV]> (mats st))).
Proof using All.
  intros Hfits. rewrite VFI_loop_unfold. unfold bind.
  destruct st as [vs ms]. cbn in HV, He, HVmat.
  by rewrite (loops_run V e Vmat betafirm N vs ms vV me mV).
Qed.

(** On arrays that are too small the interpreted loop raises [IndexError]
    at the first offending position, with the earlier positions written. *)
Lemma naive_update_too_small (VV : option loc) :
  ~ fits N vV me mV ->
  exists i k, (i < N)%nat /\ (k < N)%nat /\ ~ in_bounds vV me mV i k /\
    (forall a b, written N i k a b = true -> in_bounds vV me mV a b) /\
    naive_update (Namespace (Z.of_nat N) betafirm Vmat e V VV) st
    = (Raise IndexError,
       state_at Vmat betafirm N (vecs st) (mats st) vV me mV i k).
Proof using All.
  intros Hnf. destruct (first_offence N vV me mV Hnf)
    as (i & k & Hi & Hk & Hrows & Hrow & Hbad).
  exists i, k. split; [done|]. split; [done|]. split; [done|]. split.
  { intros a b. unfold written.
    intros [Hb%Nat.ltb_lt
              [Ha%Nat.ltb_lt|[->%Nat.eqb_eq Hbk%Nat.ltb_lt]%andb_prop]%orb_prop
           ]%andb_prop.
    - by apply Hrows.
    - by apply Hrow. }
  rewrite naive_update_unfold. cbn [ns_sizek ns_V ns_e ns_Vmat ns_betafirm].
  destruct st as [vs ms]. cbn in HV, He, HVmat.
  by rewrite (loops_raise V e Vmat betafirm N vs ms vV me mV) with (i := i) (k := k).
Qed.

(** On square [N]-by-[N] arrays every entry of the buffer is rewritten. *)
Lemma VFI_loop_square :
  length vV = N -> shape me = (N, N) -> shape mV = (N, N) ->
  VFI_loop V e betafirm (Z.of_nat N) Vmat st
  = (Ok Vmat,
     Store (vecs st)
       (<[Vmat := mat_init N N (update_entry betafirm me vV)]> (mats st))).
Proof using All.
  intros HlV Hse HsV. rewrite VFI_loop_fits.
  - by rewrite mat_update_where_full.
  - unfold shape in *. unfold fits. simplify_eq. lia.
Qed.
End WholeRun.

Lemma updated_init betafirm N vV me :
  length vV = N -> has_shape N N me ->
  updated betafirm N vV me (mat_init N N (update_entry betafirm me vV)).
Proof.
  intros HlV [Hwf Hsh] i j Hi Hj. unfold shape in Hsh.
  injection Hsh as Hr Hc.
  rewrite <- (Z2Nat.id i), <- (Z2Nat.id j) by lia.
  set (a := Z.to_nat i). set (b := Z.to_nat j).
  assert (a < N)%nat by lia. assert (b < N)%nat by lia.
  destruct (lookup_lt_is_Some_2 vV b) as [v Hv]; [lia|].
  exists (mat_entry me a b), v. split; [|split].
  - apply mat_item_nat; (done || lia).
  - by apply vec_item_nat.
  - rewrite mat_item_nat;
      [|apply mat_wf_init|rewrite nrows_init; lia|cbn; lia].
    rewrite mat_entry_init by lia. unfold update_entry. by rewrite Hv.
Qed.

(** ** Frame properties *)

Lemma only_writes_refl a st : only_writes a st st.
Proof. by split. Qed.

Lemma only_writes_trans a st1 st2 st3 :
  only_writes a st1 st2 -> only_writes a st2 st3 -> only_writes a st1 st3.
Proof.
  intros [Hv1 Hm1] [Hv2 Hm2]. split; [congruence|].
  intros l Hl. rewrite Hm2, Hm1; done.
Qed.

Lemma for_each_only_writes {A} a (l : list A) (body : A -> M unit) :
  (forall x st r st', body x st = (r, st') -> only_writes a st st') ->
  forall st r st', for_each l body st = (r, st') -> only_writes a st st'.
Proof.
  intros Hbody. induction l as [|x l IH]; intros st r st' Hrun.
  - cbn in Hrun. unfold ret in Hrun. simplify_eq. apply only_writes_refl.
  - cbn in Hrun. unfold bind in Hrun.
    destruct (body x st) as [[[]|err] st1] eqn:Hx.
    + eapply only_writes_trans; [by eapply Hbody|by eapply IH].
    + simplify_eq. by eapply Hbody.
Qed.

(** The loop body reads [e] and [V] and writes [Vmat] only, whatever the
    arrays are and whether or not it raises. *)
Lemma loop_body_only_writes V e Vmat betafirm i j st r st' :
  loop_body V e Vmat betafirm i j st = (r, st') -> only_writes Vmat st st'.
Proof.
  unfold loop_body, mat_getitem, vec_getitem, mat_setitem, bind,
    get_mat, get_vec, put_mat, lift_index, ret, raise.
  intros H.
  repeat match type of H with
    | context [match ?o with Some _ => _ | None => _ end] =>
        destruct o eqn:?; cbn in H
    end;
  simplify_eq; try apply only_writes_refl.
  split; [done|]. intros a Ha. cbn. by rewrite lookup_insert_ne.
Qed.

(** The interpreted loop, however it ends. *)
Lemma naive_update_only_writes ns st r st' :
  naive_update ns st = (r, st') -> only_writes (ns_Vmat ns) st st'.
Proof.
  rewrite naive_update_unfold. intros Hrun.
  eapply for_each_only_writes; [|exact Hrun].
  intros i s1 r1 s2 Hi. eapply for_each_only_writes; [|exact Hi].
  intros j s3 r3 s4. apply loop_body_only_writes.
Qed.

(** A call of [VFI_loop] that returns normally. *)
Lemma VFI_loop_ok_only_writes V e betafirm sizek Vmat st r st' :
  VFI_loop V e betafirm sizek Vmat st = (Ok r, st') -> only_writes Vmat st st'.
Proof.
  intros H.
  change (VFI_loop V e betafirm sizek Vmat st)
    with ((naive_update (Namespace sizek betafirm Vmat e V None) ;; ret Vmat) st) in H.
  unfold bind in H.
  destruct (naive_update _ st) as [[[]|err] s1] eqn:Hn; unfold ret in H;
    simplify_eq.
  by apply naive_update_only_writes in Hn.
Qed.

Lemma alloc_mat_fresh st : mats st !! fresh (dom (mats st)) = None.
Proof. apply not_elem_of_dom, is_fresh. Qed.

Lemma alloc_mat_only_allocates m st r st' :
  alloc_mat m st = (r, st') -> only_allocates st st'.
Proof.
  unfold alloc_mat. intros H. simplify_eq. split; [done|].
  intros l m' Hl. cbn. rewrite lookup_insert_ne; [done|].
  intros <-. by rewrite alloc_mat_fresh in Hl.
Qed.

Lemma only_allocates_refl st : only_allocates st st.
Proof. by split. Qed.

Lemma only_allocates_trans st1 st2 st3 :
  only_allocates st1 st2 -> only_allocates st2 st3 -> only_allocates st1 st3.
Proof.
  intros [Hv1 Hm1] [Hv2 Hm2]. split; [congruence|]. eauto.
Qed.

Section Respects.
Variable R : store -> store -> Prop.
Hypothesis R_refl : forall st, R st st.
Hypothesis R_trans : forall st1 st2 st3, R st1 st2 -> R st2 st3 -> R st1 st3.

Lemma respects_ret {A} (a : A) : respects R (ret a).
Proof using R_refl. intros st r st' H. unfold ret in H. by simplify_eq. Qed.

Lemma respects_raise {A} x : respects R (@raise A x).
Proof using R_refl. intros st r st' H. unfold raise in H. by simplify_eq. Qed.

Lemma respects_bind {A B} (c : M A) (k : A -> M B) :
  respects R c -> (forall a, respects R (k a)) -> respects R (bind c k).
Proof using R_trans.
  intros Hc Hk st r st' H. unfold bind in H.
  destruct (c st) as [[a|err] st1] eqn:Hrun.
  - eapply R_trans; [by eapply Hc|by eapply Hk].
  - simplify_eq. by eapply Hc.
Qed.

Lemma respects_get_vec a : respects R (get_vec a).
Proof using R_refl.
  intros st r st' H. unfold get_vec in H.
  destruct (vecs st !! a); by simplify_eq.
Qed.

Lemma respects_get_mat a : respects R (get_mat a).
Proof using R_refl.
  intros st r st' H. unfold get_mat in H.
  destruct (mats st !! a); by simplify_eq.
Qed.

Lemma respects_np_reshape_row v c : respects R (np_reshape_row v c).
Proof using R_refl.
  unfold np_reshape_row. repeat case_decide;
    (apply respects_ret || apply respects_raise).
Qed.

Lemma respects_np_tile_rows m reps : respects R (np_tile_rows m reps).
Proof using R_refl.
  unfold np_tile_rows. destruct (reps <? 0);
    (apply respects_ret || apply respects_raise).
Qed.

Lemma respects_mat_add a b : respects R (mat_add a b).
Proof using R_refl.
  unfold mat_add.
  destruct (broadcast_dim (nrows a) (nrows b)), (broadcast_dim (ncols a) (ncols b));
    (apply respects_ret || apply respects_raise).
Qed.
End Respects.

(** Cell 3 allocates and never writes into an array that exists. *)
Lemma vectorized_update_only_allocates ns :
  respects only_allocates (vectorized_update ns).
Proof.
  pose proof only_allocates_refl as Hr.
  pose proof only_allocates_trans as Ht.
  unfold vectorized_update.
  repeat (apply respects_bind; [done| |intros ?]);
    first [ by apply respects_get_vec | by apply respects_get_mat
          | by apply respects_np_reshape_row | by apply respects_np_tile_rows
          | by apply respects_mat_add | by apply respects_ret
          | intros st r st'; apply alloc_mat_only_allocates ].
Qed.

(** ** Cell 3, step by step *)

Lemma np_reshape_row_ok (v : vector) (N : nat) st :
  length v = N -> np_reshape_row v (Z.of_nat N) st = (Ok (Matrix N [v]), st).
Proof.
  intros <-. unfold np_reshape_row.
  rewrite decide_False by lia. by rewrite decide_True.
Qed.

Lemma np_reshape_row_mismatch (v : vector) (c : Z) st :
  c <> -1 -> c <> Z.of_nat (length v) ->
  np_reshape_row v c st = (Raise ValueError, st).
Proof.
  intros H1 H2. unfold np_reshape_row. by rewrite !decide_False.
Qed.

Lemma join_replicate_singleton {A} (n : nat) (x : list A) :
  mjoin (replicate n [x]) = replicate n x.
Proof. induction n as [|n IH]; [done|]. cbn. f_equal. exact IH. Qed.

Lemma np_tile_rows_ok (v : vector) (N : nat) st :
  np_tile_rows (Matrix (length v) [v]) (Z.of_nat N) st
  = (Ok (Matrix (length v) (replicate N v)), st).
Proof.
  unfold np_tile_rows.
  replace (Z.of_nat N <? 0) with false by (symmetry; apply Z.ltb_ge; lia).
  cbn. by rewrite Nat2Z.id, join_replicate_singleton.
Qed.

Lemma broadcast_dim_same n : broadcast_dim n n = Some n.
Proof. unfold broadcast_dim. by rewrite decide_True. Qed.

Lemma bc_index_lt n i : (i < n)%nat -> bc_index n i = i.
Proof. intros H. unfold bc_index. case_decide; lia. Qed.

Lemma mat_entry_scaled_tile betafirm (v : vector) (N i j : nat) :
  (i < N)%nat -> (j < length v)%nat ->
  mat_entry (scalar_mul betafirm (Matrix (length v) (replicate N v))) i j
  = mul betafirm (default nan (v !! j)).
Proof.
  intros Hi Hj. unfold mat_entry, scalar_mul. cbn.
  rewrite list_lookup_fmap, lookup_replicate_2 by done. cbn.
  rewrite list_lookup_fmap.
  destruct (lookup_lt_is_Some_2 v j Hj) as [x Hx]. by rewrite Hx.
Qed.

(** [e + betafirm * VV] on an [N]-by-[N] [e] and the tiled [V]. *)
Lemma mat_add_tiled betafirm (me : matrix) (v : vector) (N : nat) st :
  length v = N -> shape me = (N, N) ->
  mat_add me (scalar_mul betafirm (Matrix N (replicate N v))) st
  = (Ok (mat_init N N (update_entry betafirm me v)), st).
Proof.
  intros Hv Hsh. unfold shape in Hsh. injection Hsh as Hr Hc.
  unfold mat_add.
  assert (Hrs : nrows (scalar_mul betafirm (Matrix N (replicate N v))) = N).
  { unfold nrows. cbn. by rewrite length_fmap, length_replicate. }
  rewrite Hrs, Hr, Hc. cbn [ncols scalar_mul].
  rewrite !broadcast_dim_same. unfold ret. do 2 f_equal.
  apply mat_init_ext. intros i j Hi Hj.
  rewrite !bc_index_lt by done. unfold update_entry. f_equal.
  subst N. by apply mat_entry_scaled_tile.
Qed.

(** Cell 3 up to the sum, on an [N]-vector and any [e]. *)
Lemma vectorized_update_steps ns (N : nat) st (vV : vector) (me : matrix) :
  ns_sizek ns = Z.of_nat N ->
  vecs st !! ns_V ns = Some vV -> mats st !! ns_e ns = Some me ->
  length vV = N ->
  let VV := fresh (dom (mats st)) in
  let tiled := Matrix N (replicate N vV) in
  vectorized_update ns st
  = (sum <- mat_add me (scalar_mul (ns_betafirm ns) tiled) ;;
     Vmat <- alloc_mat sum ;;
     ret (Namespace (ns_sizek ns) (ns_betafirm ns) Vmat (ns_e ns) (ns_V ns) (Some VV)))
      (Store (vecs st) (<[VV := tiled]> (mats st))).
Proof.
  intros Hsz HV He Hlen VV tiled.
  unfold vectorized_update, bind at 1. unfold get_vec. rewrite HV.
  unfold bind at 1. rewrite Hsz, np_reshape_row_ok by done.
  unfold bind at 1. rewrite <- Hlen at 1 2. rewrite np_tile_rows_ok.
  unfold bind at 1, alloc_mat at 1. fold VV. rewrite Hlen. fold tiled.
  unfold bind at 1, get_mat at 1. cbn [mats].
  assert (Hne : VV <> ns_e ns).
  { intros Heq. unfold VV in Heq. rewrite <- Heq in He.
    by rewrite alloc_mat_fresh in He. }
  rewrite lookup_insert_ne by done. rewrite He.
  unfold bind at 1, get_mat at 1. cbn [mats].
  by rewrite lookup_insert_eq.
Qed.

(** The whole of cell 3 on an [N]-vector and an [N]-by-[N] [e]. *)
Lemma vectorized_update_run ns (N : nat) st (vV : vector) (me : matrix) :
  ns_sizek ns = Z.of_nat N ->
  vecs st !! ns_V ns = Some vV -> mats st !! ns_e ns = Some me ->
  length vV = N -> shape me = (N, N) ->
  let VV := fresh (dom (mats st)) in
  let ms1 := <[VV := Matrix N (replicate N vV)]> (mats st) in
  let Vmat' := fresh (dom ms1) in
  vectorized_update ns st
  = (Ok (Namespace (ns_sizek ns) (ns_betafirm ns) Vmat' (ns_e ns) (ns_V ns) (Some VV)),
     Store (vecs st)
       (<[Vmat' := mat_init N N (update_entry (ns_betafirm ns) me vV)]> ms1)).
Proof.
  intros Hsz HV He Hlen Hsh VV ms1 Vmat'.
  rewrite (vectorized_update_steps ns N st vV me) by done.
  unfold bind at 1. rewrite mat_add_tiled by done. done.
Qed.

(** A vector of the wrong length is refused by [np.reshape]. *)
Lemma vectorized_update_bad_length ns (N : nat) st (vV : vector) :
  ns_sizek ns = Z.of_nat N ->
  vecs st !! ns_V ns = Some vV -> length vV <> N ->
  vectorized_update ns st = (Raise ValueError, st).
Proof.
  intros Hsz HV Hlen. unfold vectorized_update, bind at 1.
  unfold get_vec. rewrite HV. unfold bind at 1.
  rewrite np_reshape_row_mismatch; [done|lia|lia].
Qed.

Lemma nrows_scaled_tile betafirm (v : vector) N :
  nrows (scalar_mul betafirm (Matrix N (replicate N v))) = N.
Proof. unfold nrows. cbn. by rewrite length_fmap, length_replicate. Qed.

(** The sum raises exactly when an axis of [e] cannot be broadcast. *)
Lemma mat_add_tiled_outcome betafirm (me : matrix) (v : vector) (N : nat) st :
  (broadcast_dim (nrows me) N = None \/ broadcast_dim (ncols me) N = None ->
   mat_add me (scalar_mul betafirm (Matrix N (replicate N v))) st
   = (Raise ValueError, st)) /\
  (is_Some (broadcast_dim (nrows me) N) -> is_Some (broadcast_dim (ncols me) N) ->
   exists sum, mat_add me (scalar_mul betafirm (Matrix N (replicate N v))) st
               = (Ok sum, st)).
Proof.
  unfold mat_add. rewrite nrows_scaled_tile. cbn [ncols scalar_mul].
  split.
  - intros [-> | H]; [done|]. rewrite H. by destruct (broadcast_dim (nrows me) N).
  - intros [r ->] [c ->]. by eexists.
Qed.

(** * The claims *)

(** C1. For [N]-by-[N] matrices [e] and [Vmat] and a length-[N] vector [V],
    the loop update, as the function [VFI_loop] and as the interpreted loop
    of cell 1, sets [Vmat[i][j] = e[i][j] + betafirm * V[j]] for every [i]
    and [j] in [[0, N)], where [e] and [V] are read before the call; the
    function returns the reference [Vmat] it was given, whose array it has
    mutated in place. *)
Theorem loop_update_sets_every_entry
    (V e Vmat : loc) (betafirm : f64) (N : nat) (st : store)
    (vV : vector) (me mV : matrix) (VV : option loc) :
  vecs st !! V = Some vV ->
  mats st !! e = Some me ->
  mats st !! Vmat = Some mV ->
  length vV = N -> has_shape N N me -> has_shape N N mV ->
  exists st' mV',
    VFI_loop V e betafirm (Z.of_nat N) Vmat st = (Ok Vmat, st') /\
    naive_update (Namespace (Z.of_nat N) betafirm Vmat e V VV) st = (Ok tt, st') /\
    mats st' !! Vmat = Some mV' /\
    has_shape N N mV' /\
    updated betafirm N vV me mV'.
Proof.
  intros HV He HVmat Hlen [Hwfe Hse] [HwfV HsV].
  assert (Hrun := VFI_loop_square V e Vmat betafirm N st vV me mV
                    HV He HVmat Hwfe HwfV Hlen Hse HsV).
  eexists _, _. split; [exact Hrun|]. split; [|split; [|split]].
  - by apply (naive_update_of_VFI_loop (Namespace _ _ _ _ _ _)).
  - cbn. apply lookup_insert_eq.
  - apply has_shape_init.
  - by apply updated_init.
Qed.

Lemma loop_update_sets_every_entry_witness :
  exists st' mV',
    VFI_loop 1%positive 2%positive (of_ratio 96 100) 3 1%positive scenario_store
      = (Ok 1%positive, st') /\
    naive_update scenario_ns scenario_store = (Ok tt, st') /\
    mats st' !! 1%positive = Some mV' /\
    has_shape 3 3 mV' /\
    updated (of_ratio 96 100) 3 scenario_V (mat_zeros 3 3) mV'.
Proof.
  apply (loop_update_sets_every_entry 1%positive 2%positive 1%positive
           (of_ratio 96 100) 3 scenario_store scenario_V
           (mat_zeros 3 3) (mat_zeros 3 3) None);
    try reflexivity; (split; [repeat constructor|reflexivity]).
Defined.

(** C2. On the same inputs [V], [e], [betafirm] and [N], each run with an
    output buffer of its own, the compiled update [VFI_loop] and the
    interpreted loop of cell 1 both return normally and leave the same
    matrix, element for element, in their buffers.  (The decorator
    [@numba.jit()] is taken to preserve the meaning of the function body.) *)
Theorem compiled_update_equals_naive_update
    (V e Vmat1 Vmat2 : loc) (betafirm : f64) (N : nat) (st : store)
    (vV : vector) (me m1 m2 : matrix) (VV : option loc) :
  vecs st !! V = Some vV ->
  mats st !! e = Some me ->
  mats st !! Vmat1 = Some m1 ->
  mats st !! Vmat2 = Some m2 ->
  length vV = N -> has_shape N N me -> has_shape N N m1 -> has_shape N N m2 ->
  exists st1 st2 m,
    naive_update (Namespace (Z.of_nat N) betafirm Vmat1 e V VV) st = (Ok tt, st1) /\
    VFI_loop V e betafirm (Z.of_nat N) Vmat2 st = (Ok Vmat2, st2) /\
    mats st1 !! Vmat1 = Some m /\
    mats st2 !! Vmat2 = Some m.
Proof.
  intros HV He H1 H2 Hlen [Hwfe Hse] [Hwf1 Hs1] [Hwf2 Hs2].
  assert (Hrun1 := VFI_loop_square V e Vmat1 betafirm N st vV me m1
                     HV He H1 Hwfe Hwf1 Hlen Hse Hs1).
  assert (Hrun2 := VFI_loop_square V e Vmat2 betafirm N st vV me m2
                     HV He H2 Hwfe Hwf2 Hlen Hse Hs2).
  eexists _, _, _. split; [|split; [exact Hrun2|split]].
  - by apply (naive_update_of_VFI_loop (Namespace _ _ _ _ _ _)).
  - cbn. apply lookup_insert_eq.
  - cbn. apply lookup_insert_eq.
Qed.

Lemma compiled_update_equals_naive_update_witness :
  exists st1 st2 m,
    naive_update scenario_ns scenario_store = (Ok tt, st1) /\
    VFI_loop 1%positive 2%positive (of_ratio 96 100) 3 2%positive scenario_store
      = (Ok 2%positive, st2) /\
    mats st1 !! 1%positive = Some m /\
    mats st2 !! 2%positive = Some m.
Proof.
  apply (compiled_update_equals_naive_update 1%positive 2%positive 1%positive
           2%positive (of_ratio 96 100) 3 scenario_store scenario_V
           (mat_zeros 3 3) (mat_zeros 3 3) (mat_zeros 3 3) None);
    try reflexivity; (split; [repeat constructor|reflexivity]).
Defined.

(** C4. An update step leaves the inputs alone.  A call of [VFI_loop] that
    returns normally (every index it met was in range), and the interpreted
    loop on any arguments, whether it returns or raises, change no vector
    (so [V] keeps every entry) and no matrix other than the one in the
    output buffer [Vmat] (so [e], an array of its own, keeps every entry).
    The vectorised step writes into no array that exists: it binds [VV] and
    [Vmat] to new arrays. *)
Theorem update_leaves_inputs_unchanged
    (V e Vmat : loc) (betafirm : f64) (sizek : Z) (VV : option loc) (st : store) :
  let ns := Namespace sizek betafirm Vmat e V VV in
  (forall r st', VFI_loop V e betafirm sizek Vmat st = (Ok r, st') ->
     vecs st' !! V = vecs st !! V /\
     (e <> Vmat -> mats st' !! e = mats st !! e) /\
     only_writes Vmat st st') /\
  (forall r st', naive_update ns st = (r, st') ->
     vecs st' !! V = vecs st !! V /\
     (e <> Vmat -> mats st' !! e = mats st !! e) /\
     only_writes Vmat st st') /\
  (forall r st', vectorized_update ns st = (r, st') ->
     vecs st' !! V = vecs st !! V /\
     (forall me, mats st !! e = Some me -> mats st' !! e = Some me) /\
     only_allocates st st').
Proof.
  intros ns. split; [|split].
  - intros r st' H. apply VFI_loop_ok_only_writes in H. destruct H as [Hv Hm].
    split; [by rewrite Hv|]. split; [intros Hne; by apply Hm|by split].
  - intros r st' H. apply naive_update_only_writes in H.
    cbn [ns_Vmat ns] in H. destruct H as [Hv Hm].
    split; [by rewrite Hv|]. split; [intros Hne; by apply Hm|by split].
  - intros r st' H. apply vectorized_update_only_allocates in H.
    destruct H as [Hv Hm].
    split; [by rewrite Hv|]. split; [intros me; apply Hm|by split].
Qed.

(** C9. On well-formed [N]-by-[N] input the result of [VFI_loop] does not
    depend on what the output buffer holds at the call: two runs that
    differ only in the initial contents of the buffer return the same
    reference and end in the same store, the buffer holding the same matrix,
    since every entry of it is overwritten. *)
Theorem VFI_loop_result_independent_of_buffer
    (V e Vmat : loc) (betafirm : f64) (N : nat) (st : store)
    (vV : vector) (me m1 m2 : matrix) :
  vecs st !! V = Some vV ->
  mats st !! e = Some me ->
  e <> Vmat ->
  length vV = N -> has_shape N N me -> has_shape N N m1 -> has_shape N N m2 ->
  let st1 := Store (vecs st) (<[Vmat := m1]> (mats st)) in
  let st2 := Store (vecs st) (<[Vmat := m2]> (mats st)) in
  exists st' m,
    VFI_loop V e betafirm (Z.of_nat N) Vmat st1 = (Ok Vmat, st') /\
    VFI_loop V e betafirm (Z.of_nat N) Vmat st2 = (Ok Vmat, st') /\
    mats st' !! Vmat = Some m /\
    has_shape N N m /\ updated betafirm N vV me m.
Proof.
  intros HV He Hne Hlen [Hwfe Hse] [Hwf1 Hs1] [Hwf2 Hs2] st1 st2.
  assert (Hrun1 : VFI_loop V e betafirm (Z.of_nat N) Vmat st1 = _)
    by (apply (VFI_loop_square V e Vmat betafirm N st1 vV me m1); try done;
        cbn; by rewrite ?lookup_insert_eq, ?lookup_insert_ne).
  assert (Hrun2 : VFI_loop V e betafirm (Z.of_nat N) Vmat st2 = _)
    by (apply (VFI_loop_square V e Vmat betafirm N st2 vV me m2); try done;
        cbn; by rewrite ?lookup_insert_eq, ?lookup_insert_ne).
  cbn in Hrun1, Hrun2. rewrite insert_insert_eq in Hrun1, Hrun2.
  eexists _, _. split; [exact Hrun1|]. split; [exact Hrun2|].
  split; [cbn; apply lookup_insert_eq|].
  split; [apply has_shape_init|by apply updated_init].
Qed.

Lemma VFI_loop_result_independent_of_buffer_witness :
  exists st' m,
    VFI_loop 1%positive 2%positive (of_ratio 96 100) 3 1%positive
      (Store (vecs scenario_store)
             (<[1%positive := mat_zeros 3 3]> (mats scenario_store)))
      = (Ok 1%positive, st') /\
    VFI_loop 1%positive 2%positive (of_ratio 96 100) 3 1%positive
      (Store (vecs scenario_store)
             (<[1%positive := scenario_result]> (mats scenario_store)))
      = (Ok 1%positive, st') /\
    mats st' !! 1%positive = Some m /\
    has_shape 3 3 m /\ updated (of_ratio 96 100) 3 scenario_V (mat_zeros 3 3) m.
Proof.
  apply (VFI_loop_result_independent_of_buffer 1%positive 2%positive 1%positive
           (of_ratio 96 100) 3 scenario_store scenario_V (mat_zeros 3 3)
           (mat_zeros 3 3) scenario_result);
    try reflexivity; try discriminate;
    (split; [repeat constructor|reflexivity]).
Defined.

(** C10. With [sizek = 0] the loops of [VFI_loop] run zero times: the call
    raises nothing, touches no array (in particular not the empty [V], [e]
    and [Vmat] of shapes [(0,)] and [(0, 0)]) and returns [Vmat] as it
    is. *)
Theorem VFI_loop_zero_size (V e Vmat : loc) (betafirm : f64) (st : store) :
  range 0 = [] /\
  VFI_loop V e betafirm 0 Vmat st = (Ok Vmat, st).
Proof. split; reflexivity. Qed.

(** ** Binary64 facts *)

Lemma sub_diag x : is_finite x = true -> sub x x = zero.
Proof.
  destruct x as [[]|[]| |s m e]; try done. intros _.
  unfold sub, SFsub. by rewrite Z.sub_diag.
Qed.

Lemma abs_diff_diag x : is_finite x = true -> abs (sub x x) = zero.
Proof. intros H. by rewrite sub_diag. Qed.

Lemma zero_below_tolerance : ltb zero tolerance = true.
Proof. reflexivity. Qed.

Lemma foldl_fmax_zero (l : vector) :
  Forall (eq zero) l -> foldl fmax zero l = zero.
Proof. induction 1 as [|x l <- _ IH]; [done|]. cbn. exact IH. Qed.

Lemma zip_with_diag {A B} (f : A -> A -> B) (l : list A) :
  zip_with f l l = (fun x => f x x) <$> l.
Proof. induction l as [|x l IH]; [done|]. cbn. by rewrite IH. Qed.

Lemma abs_diffs_diag m :
  all_finite m = true -> Forall (eq zero) (abs_diffs m m).
Proof.
  unfold all_finite, abs_diffs. rewrite zip_with_diag.
  induction (mrows m) as [|r rows IH]; [constructor|].
  cbn. intros [Hr Hrows]%andb_prop. apply Forall_app. split; [|by apply IH].
  rewrite zip_with_diag. apply Forall_fmap, Forall_forall.
  intros x Hx%list_elem_of_In. cbn. symmetry. apply abs_diff_diag.
  by apply (proj1 (forallb_forall _ _) Hr).
Qed.

Lemma abs_diffs_nonempty N m :
  (0 < N)%nat -> has_shape N N m -> abs_diffs m m <> [].
Proof.
  intros HN [Hwf Hsh]. unfold shape, nrows in Hsh. injection Hsh as Hr Hc.
  unfold abs_diffs. rewrite zip_with_diag.
  destruct (mrows m) as [|r rows] eqn:E; [cbn in Hr; lia|].
  assert (Hlen : length r = ncols m)
    by (apply (mat_wf_row m 0%nat r Hwf); by rewrite E).
  destruct r as [|x r]; [cbn in Hlen; lia|]. done.
Qed.

(** Two equal real-valued matrices are at distance zero. *)
Lemma max_abs_diff_diag N m :
  (0 < N)%nat -> has_shape N N m -> all_finite m = true ->
  max_abs_diff m m = Some zero.
Proof.
  intros HN Hsh Hfin. unfold max_abs_diff.
  assert (Hz := abs_diffs_diag m Hfin).
  assert (Hne := abs_diffs_nonempty N m HN Hsh).
  destruct (abs_diffs m m) as [|d ds]; [done|].
  apply Forall_cons in Hz as [<- Hz]. by rewrite foldl_fmax_zero.
Qed.

(** C3. On well-formed input of positive size [N] the vectorised update
    (tile [V] into [N] identical rows, then [e + betafirm * VV]) and the
    interpreted loop both return normally and produce the same matrix,
    entry for entry; whenever that matrix is real-valued (no entry has
    overflowed to an infinity or is a NaN), the maximum absolute
    element-wise difference of the two results is zero, below [1e-9]. *)
Theorem vectorized_update_equals_naive_update
    (ns : namespace) (N : nat) (st : store) (vV : vector) (me mV : matrix) :
  ns_sizek ns = Z.of_nat N -> (0 < N)%nat ->
  vecs st !! ns_V ns = Some vV ->
  mats st !! ns_e ns = Some me ->
  mats st !! ns_Vmat ns = Some mV ->
  length vV = N -> has_shape N N me -> has_shape N N mV ->
  exists st1 ns2 st2 m1 m2,
    naive_update ns st = (Ok tt, st1) /\
    vectorized_update ns st = (Ok ns2, st2) /\
    mats st1 !! ns_Vmat ns = Some m1 /\
    mats st2 !! ns_Vmat ns2 = Some m2 /\
    m1 = m2 /\
    (all_finite m1 = true ->
     exists d, max_abs_diff m1 m2 = Some d /\ ltb d tolerance = true).
Proof.
  intros Hsz HN HV He HVmat Hlen [Hwfe Hse] [HwfV HsV].
  assert (Hrun1 := VFI_loop_square (ns_V ns) (ns_e ns) (ns_Vmat ns)
                     (ns_betafirm ns) N st vV me mV
                     HV He HVmat Hwfe HwfV Hlen Hse HsV).
  rewrite <- Hsz in Hrun1. apply naive_update_of_VFI_loop in Hrun1.
  assert (Hrun2 := vectorized_update_run ns N st vV me Hsz HV He Hlen Hse).
  cbn zeta in Hrun2.
  eexists _, _, _, _, _. split; [exact Hrun1|]. split; [exact Hrun2|].
  split; [cbn; apply lookup_insert_eq|].
  split; [cbn; apply lookup_insert_eq|].
  split; [done|]. intros Hfin. exists zero. split; [|apply zero_below_tolerance].
  apply (max_abs_diff_diag N); [done|apply has_shape_init|done].
Qed.

Lemma vectorized_update_equals_naive_update_witness :
  exists st1 ns2 st2 m1 m2,
    naive_update scenario_ns scenario_store = (Ok tt, st1) /\
    vectorized_update scenario_ns scenario_store = (Ok ns2, st2) /\
    mats st1 !! ns_Vmat scenario_ns = Some m1 /\
    mats st2 !! ns_Vmat ns2 = Some m2 /\
    m1 = m2 /\
    (all_finite m1 = true ->
     exists d, max_abs_diff m1 m2 = Some d /\ ltb d tolerance = true).
Proof.
  apply (vectorized_update_equals_naive_update scenario_ns 3 scenario_store
           scenario_V (mat_zeros 3 3) (mat_zeros 3 3));
    try reflexivity; try lia; (split; [repeat constructor|reflexivity]).
Defined.

(** C5, as the code has it.  No update checks a shape beforehand.  Arrays
    that are large enough for [range(N)], among them a non-square [e] and
    arrays larger than [N], are accepted by [VFI_loop] and by the
    interpreted loop, which return normally.  An axis that is too short for
    an index of [range(N)] ([V] shorter than [N], or [e] or [Vmat] with
    fewer than [N] rows or columns) makes the interpreted loop raise
    [IndexError] at the first offending position [(i, k)] in row-major
    order, the entries before it written and none after; of [VFI_loop],
    compiled without bounds checks, nothing is stated there.  The
    vectorised update raises [ValueError] when [V] has not length [N] or
    when an axis of [e] cannot be broadcast against [N], and returns
    normally otherwise. *)
Theorem update_on_mismatched_dimensions
    (V e Vmat : loc) (betafirm : f64) (N : nat) (st : store)
    (vV : vector) (me mV : matrix) (VV : option loc) :
  vecs st !! V = Some vV ->
  mats st !! e = Some me ->
  mats st !! Vmat = Some mV ->
  mat_wf me -> mat_wf mV ->
  let ns := Namespace (Z.of_nat N) betafirm Vmat e V VV in
  (fits N vV me mV ->
   exists st', VFI_loop V e betafirm (Z.of_nat N) Vmat st = (Ok Vmat, st') /\
               naive_update ns st = (Ok tt, st')) /\
  (~ fits N vV me mV ->
   exists i k, (i < N)%nat /\ (k < N)%nat /\ ~ in_bounds vV me mV i k /\
     (forall a b, written N i k a b = true -> in_bounds vV me mV a b) /\
     naive_update ns st
     = (Raise IndexError,
        state_at Vmat betafirm N (vecs st) (mats st) vV me mV i k)) /\
  (length vV <> N -> vectorized_update ns st = (Raise ValueError, st)) /\
  (length vV = N ->
   broadcast_dim (nrows me) N = None \/ broadcast_dim (ncols me) N = None ->
   exists st', vectorized_update ns st = (Raise ValueError, st')) /\
  (length vV = N ->
   is_Some (broadcast_dim (nrows me) N) -> is_Some (broadcast_dim (ncols me) N) ->
   exists ns' st', vectorized_update ns st = (Ok ns', st')).
Proof.
  intros HV He HVmat Hwfe HwfV ns. repeat split.
  - intros Hfits. eexists. split.
    + by apply (VFI_loop_fits V e Vmat betafirm N st vV me mV).
    + apply (naive_update_of_VFI_loop ns).
      by apply (VFI_loop_fits V e Vmat betafirm N st vV me mV).
  - intros Hnf.
    destruct (naive_update_too_small V e Vmat betafirm N st vV me mV
                HV He HVmat Hwfe HwfV VV Hnf)
      as (i & k & Hi & Hk & Hbad & Hfirst & Hrun).
    exists i, k. split; [done|]. split; [done|]. split; [done|].
    split; [done|]. exact Hrun.
  - intros Hlen. by apply (vectorized_update_bad_length ns N st vV).
  - intros Hlen Hbc.
    rewrite (vectorized_update_steps ns N st vV me) by done. cbn zeta.
    unfold bind at 1.
    rewrite (proj1 (mat_add_tiled_outcome betafirm me vV N _)) by done.
    by eexists.
  - intros Hlen Hr Hc.
    rewrite (vectorized_update_steps ns N st vV me) by done. cbn zeta.
    unfold bind at 1. unfold ns. cbn [ns_sizek ns_betafirm ns_Vmat ns_e ns_V].
    destruct (proj2 (mat_add_tiled_outcome betafirm me vV N
                (Store (vecs st)
                   (<[fresh (dom (mats st)) := Matrix N (replicate N vV)]> (mats st))))
                Hr Hc) as [sum ->].
    unfold bind, alloc_mat, ret. by eexists _, _.
Qed.

Lemma update_on_mismatched_dimensions_witness :
  let V := 1%positive in let e := 2%positive in let Vmat := 1%positive in
  let betafirm := of_ratio 96 100 in let N := 3%nat in let st := short_store in
  let vV := scenario_V in let me := mat_zeros 2 3 in let mV := mat_zeros 3 3 in
  let ns := Namespace (Z.of_nat N) betafirm Vmat e V None in
  (fits N vV me mV ->
   exists st', VFI_loop V e betafirm (Z.of_nat N) Vmat st = (Ok Vmat, st') /\
               naive_update ns st = (Ok tt, st')) /\
  (~ fits N vV me mV ->
   exists i k, (i < N)%nat /\ (k < N)%nat /\ ~ in_bounds vV me mV i k /\
     (forall a b, written N i k a b = true -> in_bounds vV me mV a b) /\
     naive_update ns st
     = (Raise IndexError,
        state_at Vmat betafirm N (vecs st) (mats st) vV me mV i k)) /\
  (length vV <> N -> vectorized_update ns st = (Raise ValueError, st)) /\
  (length vV = N ->
   broadcast_dim (nrows me) N = None \/ broadcast_dim (ncols me) N = None ->
   exists st', vectorized_update ns st = (Raise ValueError, st')) /\
  (length vV = N ->
   is_Some (broadcast_dim (nrows me) N) -> is_Some (broadcast_dim (ncols me) N) ->
   exists ns' st', vectorized_update ns st = (Ok ns', st')).
Proof.
  intros V e Vmat betafirm N st vV me mV ns.
  apply (update_on_mismatched_dimensions V e Vmat betafirm N st vV me mV None);
    try reflexivity; repeat constructor.
Defined.

(** C5, as stated, fails: with [N = 3], an [e] of shape [(3, 5)] is neither
    square nor of size [N], and both loops run to their normal end on it,
    writing the scenario's result into [Vmat]. *)
Lemma mismatch_accepted_silently :
  mismatched 3 scenario_V (mat_zeros 3 5) (mat_zeros 3 3) /\
  vecs wide_store !! 1%positive = Some scenario_V /\
  mats wide_store !! 2%positive = Some (mat_zeros 3 5) /\
  mats wide_store !! 1%positive = Some (mat_zeros 3 3) /\
  VFI_loop 1%positive 2%positive (of_ratio 96 100) 3 1%positive wide_store
  = (Ok 1%positive,
     Store (vecs wide_store) (<[1%positive := scenario_result]> (mats wide_store))) /\
  naive_update scenario_ns wide_store
  = (Ok tt,
     Store (vecs wide_store) (<[1%positive := scenario_result]> (mats wide_store))).
Proof.
  split; [intros (_ & H & _); discriminate H|].
  repeat split; vm_compute; reflexivity.
Qed.

(** An [e] with two rows only: the interpreted loop writes rows 0 and 1
    and raises at row 2, column 0. *)
Example short_e_raises_at_row_2 :
  naive_update scenario_ns short_store
  = (Raise IndexError,
     Store (vecs short_store)
           (<[1%positive := Matrix 3 [scenario_row; scenario_row;
                                       [zero; zero; zero]]]> (mats short_store))).
Proof. vm_compute. reflexivity. Qed.

(** C6. With [N = 3], [betafirm = 0.96], [e] the 3-by-3 zero matrix and
    [V = [1, 2, 3]], each of the three updates leaves in [Vmat] the matrix
    whose three rows are [[0.96, 1.92, 2.88]], those being the binary64
    numbers the three decimal literals denote. *)
Theorem scenario_rows
    (V e Vmat : loc) (st : store) (mV : matrix) (VV : option loc) :
  vecs st !! V = Some scenario_V ->
  mats st !! e = Some (mat_zeros 3 3) ->
  mats st !! Vmat = Some mV ->
  has_shape 3 3 mV ->
  let ns := Namespace 3 (of_ratio 96 100) Vmat e V VV in
  (exists st', VFI_loop V e (of_ratio 96 100) 3 Vmat st = (Ok Vmat, st') /\
               mats st' !! Vmat = Some scenario_result) /\
  (exists st', naive_update ns st = (Ok tt, st') /\
               mats st' !! Vmat = Some scenario_result) /\
  (exists ns' st', vectorized_update ns st = (Ok ns', st') /\
                   mats st' !! ns_Vmat ns' = Some scenario_result).
Proof.
  intros HV He HVmat [HwfV HsV] ns.
  assert (Hwfe : mat_wf (mat_zeros 3 3)) by repeat constructor.
  assert (Hrun := VFI_loop_square V e Vmat (of_ratio 96 100) 3 st scenario_V
                    (mat_zeros 3 3) mV HV He HVmat Hwfe HwfV eq_refl eq_refl HsV).
  change (mat_init 3 3 (update_entry (of_ratio 96 100) (mat_zeros 3 3) scenario_V))
    with scenario_result in Hrun.
  split; [|split].
  - eexists. split; [exact Hrun|]. cbn. apply lookup_insert_eq.
  - eexists. split; [by apply (naive_update_of_VFI_loop ns)|].
    cbn. apply lookup_insert_eq.
  - assert (Hvec := vectorized_update_run ns 3 st scenario_V (mat_zeros 3 3)
                      eq_refl HV He eq_refl eq_refl).
    cbn zeta in Hvec.
    change (mat_init 3 3 (update_entry (ns_betafirm ns) (mat_zeros 3 3) scenario_V))
      with scenario_result in Hvec.
    eexists _, _. split; [exact Hvec|]. cbn. apply lookup_insert_eq.
Qed.

Lemma scenario_rows_witness :
  (exists st', VFI_loop 1%positive 2%positive (of_ratio 96 100) 3 1%positive
                 scenario_store = (Ok 1%positive, st') /\
               mats st' !! 1%positive = Some scenario_result) /\
  (exists st', naive_update scenario_ns scenario_store = (Ok tt, st') /\
               mats st' !! 1%positive = Some scenario_result) /\
  (exists ns' st', vectorized_update scenario_ns scenario_store = (Ok ns', st') /\
                   mats st' !! ns_Vmat ns' = Some scenario_result).
Proof.
  apply (scenario_rows 1%positive 2%positive 1%positive scenario_store
           (mat_zeros 3 3) None);
    try reflexivity; (split; [repeat constructor|reflexivity]).
Defined.

(** ** Allocation *)

Lemma np_zeros2_run (r c : Z) st :
  0 <= r -> 0 <= c ->
  np_zeros2 r c st
  = (Ok (fresh (dom (mats st))),
     Store (vecs st)
       (<[fresh (dom (mats st)) := mat_zeros (Z.to_nat r) (Z.to_nat c)]> (mats st))).
Proof.
  intros Hr Hc. unfold np_zeros2.
  replace (r <? 0) with false by (symmetry; apply Z.ltb_ge; lia).
  replace (c <? 0) with false by (symmetry; apply Z.ltb_ge; lia).
  reflexivity.
Qed.

Lemma np_zeros1_run (n : Z) st :
  0 <= n ->
  np_zeros1 n st
  = (Ok (fresh (dom (vecs st))),
     Store (<[fresh (dom (vecs st)) := replicate (Z.to_nat n) zero]> (vecs st))
           (mats st)).
Proof.
  intros Hn. unfold np_zeros1.
  replace (n <? 0) with false by (symmetry; apply Z.ltb_ge; lia).
  reflexivity.
Qed.

Lemma zero_vector_replicate N : zero_vector N (replicate N zero).
Proof.
  split; [apply length_replicate|].
  apply Forall_forall. by intros x [-> _]%elem_of_replicate.
Qed.

Lemma zero_matrix_zeros N : zero_matrix N (mat_zeros N N).
Proof.
  split; [split|].
  - apply Forall_forall. intros r [-> _]%elem_of_replicate. cbn.
    apply length_replicate.
  - unfold shape, nrows. cbn. by rewrite length_replicate.
  - apply Forall_forall. intros r [-> _]%elem_of_replicate.
    apply Forall_forall. by intros x [-> _]%elem_of_replicate.
Qed.

Lemma fresh_insert_ne (ms : gmap loc matrix) (m : matrix) :
  fresh (dom (<[fresh (dom ms) := m]> ms)) <> fresh (dom ms).
Proof.
  intros Heq.
  apply (is_fresh (dom (<[fresh (dom ms) := m]> ms))).
  rewrite Heq at 1. rewrite dom_insert_L. set_solver.
Qed.

(** C7. For a positive grid size the initialisation of cell 1 returns three
    new arrays, [V] of length [N] and [e] and [Vmat] of shape [N]-by-[N],
    every entry of which is zero; [e] and [Vmat] are distinct objects and no
    array that existed before is changed. *)
Theorem initialize_grid_all_zero (sizek : Z) (betafirm : f64) (st : store) :
  0 < sizek ->
  exists ns st' v me mV,
    initialize_grid sizek betafirm st = (Ok ns, st') /\
    ns_sizek ns = sizek /\ ns_betafirm ns = betafirm /\
    vecs st' !! ns_V ns = Some v /\ zero_vector (Z.to_nat sizek) v /\
    mats st' !! ns_e ns = Some me /\ zero_matrix (Z.to_nat sizek) me /\
    mats st' !! ns_Vmat ns = Some mV /\ zero_matrix (Z.to_nat sizek) mV /\
    ns_e ns <> ns_Vmat ns /\
    vecs st !! ns_V ns = None /\ mats st !! ns_e ns = None /\
    mats st !! ns_Vmat ns = None.
Proof.
  intros Hpos. unfold initialize_grid.
  unfold bind at 1. rewrite np_zeros2_run by lia.
  unfold bind at 1. rewrite np_zeros2_run by lia. cbn [mats vecs].
  unfold bind at 1. rewrite np_zeros1_run by lia. cbn [mats vecs].
  unfold ret.
  set (N := Z.to_nat sizek).
  set (a := fresh (dom (mats st))).
  set (b := fresh (dom (<[a := mat_zeros N N]> (mats st)))).
  assert (Hab : b <> a) by apply fresh_insert_ne.
  eexists _, _, _, _, _. split; [reflexivity|]. cbn.
  split; [done|]. split; [done|].
  split; [apply lookup_insert_eq|]. split; [apply zero_vector_replicate|].
  split; [apply lookup_insert_eq|]. split; [apply zero_matrix_zeros|].
  split; [rewrite lookup_insert_ne by done; apply lookup_insert_eq|].
  split; [apply zero_matrix_zeros|]. split; [done|].
  split; [apply not_elem_of_dom, is_fresh|].
  split; [|apply alloc_mat_fresh].
  assert (Hb : (<[a := mat_zeros N N]> (mats st)) !! b = None)
    by apply not_elem_of_dom, is_fresh.
  by rewrite lookup_insert_ne in Hb.
Qed.

Lemma initialize_grid_all_zero_witness :
  exists ns st' v me mV,
    initialize_grid 3 (of_ratio 96 100) (Store ∅ ∅) = (Ok ns, st') /\
    ns_sizek ns = 3 /\ ns_betafirm ns = of_ratio 96 100 /\
    vecs st' !! ns_V ns = Some v /\ zero_vector (Z.to_nat 3) v /\
    mats st' !! ns_e ns = Some me /\ zero_matrix (Z.to_nat 3) me /\
    mats st' !! ns_Vmat ns = Some mV /\ zero_matrix (Z.to_nat 3) mV /\
    ns_e ns <> ns_Vmat ns /\
    vecs (Store ∅ ∅) !! ns_V ns = None /\ mats (Store ∅ ∅) !! ns_e ns = None /\
    mats (Store ∅ ∅) !! ns_Vmat ns = None.
Proof.
  apply (initialize_grid_all_zero 3 (of_ratio 96 100) (Store ∅ ∅)). lia.
Defined.

(** A negative size is refused by [np.zeros]. *)
Example initialize_grid_negative betafirm st :
  initialize_grid (-1) betafirm st = (Raise ValueError, st).
Proof. reflexivity. Qed.

(** ** Calls on a fresh buffer *)

Lemma fresh_lookup_ne (ms : gmap loc matrix) l m :
  ms !! l = Some m -> fresh (dom ms) <> l.
Proof.
  intros Hl Heq. apply (is_fresh (dom ms)). rewrite Heq.
  apply elem_of_dom. eauto.
Qed.

Lemma call_fresh_VFI_loop_run V e betafirm (N : nat) st (vV : vector) (me : matrix) :
  vecs st !! V = Some vV -> mats st !! e = Some me ->
  length vV = N -> has_shape N N me ->
  call_fresh (VFI_loop V e betafirm (Z.of_nat N)) (Z.of_nat N) st
  = (Ok (fresh (dom (mats st))),
     Store (vecs st)
       (<[fresh (dom (mats st)) := mat_init N N (update_entry betafirm me vV)]>
          (mats st))).
Proof.
  intros HV He Hlen [Hwfe Hse]. unfold call_fresh, bind.
  rewrite np_zeros2_run by lia. rewrite Nat2Z.id.
  set (B := fresh (dom (mats st))).
  assert (HB : B <> e) by (by eapply fresh_lookup_ne).
  destruct (zero_matrix_zeros N) as [[Hwfz Hsz] _].
  rewrite (VFI_loop_square V e B betafirm N _ vV me (mat_zeros N N));
    try done; cbn.
  - by rewrite insert_insert_eq.
  - by rewrite lookup_insert_ne.
  - apply lookup_insert_eq.
Qed.

(** C8. Each of the three updates, called twice on the same [V], [e],
    [betafirm] and [N] (the loop updates with a newly allocated, zeroed
    output buffer at each call), returns normally both times, and the two
    result arrays, distinct objects, hold the same matrix. *)
Theorem update_twice_same_result
    (V e Vmat : loc) (betafirm : f64) (N : nat) (st : store)
    (vV : vector) (me : matrix) (VV : option loc) :
  vecs st !! V = Some vV ->
  mats st !! e = Some me ->
  length vV = N -> has_shape N N me ->
  let sizek := Z.of_nat N in
  (exists r1 r2 st' m,
     twice (call_fresh (VFI_loop V e betafirm sizek) sizek) st = (Ok (r1, r2), st') /\
     r1 <> r2 /\ mats st' !! r1 = Some m /\ mats st' !! r2 = Some m) /\
  (exists r1 r2 st' m,
     twice (call_fresh
              (fun buf => naive_update (Namespace sizek betafirm buf e V VV) ;;
                          ret buf) sizek) st = (Ok (r1, r2), st') /\
     r1 <> r2 /\ mats st' !! r1 = Some m /\ mats st' !! r2 = Some m) /\
  (exists ns1 ns2 st' m,
     twice (vectorized_update (Namespace sizek betafirm Vmat e V VV)) st
       = (Ok (ns1, ns2), st') /\
     ns_Vmat ns1 <> ns_Vmat ns2 /\
     mats st' !! ns_Vmat ns1 = Some m /\ mats st' !! ns_Vmat ns2 = Some m).
Proof.
  intros HV He Hlen Hsh sizek. subst sizek.
  assert (Hloop : exists r1 r2 st' m,
     twice (call_fresh (VFI_loop V e betafirm (Z.of_nat N)) (Z.of_nat N)) st
       = (Ok (r1, r2), st') /\
     r1 <> r2 /\ mats st' !! r1 = Some m /\ mats st' !! r2 = Some m).
  { unfold twice, bind at 1.
    rewrite (call_fresh_VFI_loop_run V e betafirm N st vV me) by done.
    set (B1 := fresh (dom (mats st))).
    set (R := mat_init N N (update_entry betafirm me vV)).
    assert (HB1 : B1 <> e) by (by eapply fresh_lookup_ne).
    unfold bind at 1.
    rewrite (call_fresh_VFI_loop_run V e betafirm N _ vV me);
      [|done|cbn; by rewrite lookup_insert_ne|done|done].
    cbn [mats vecs]. set (B2 := fresh (dom (<[B1 := R]> (mats st)))).
    assert (HB2 : B2 <> B1) by apply fresh_insert_ne.
    unfold ret. eexists _, _, _, R. split; [reflexivity|]. cbn.
    split; [done|]. split; [|apply lookup_insert_eq].
    rewrite lookup_insert_ne by done. apply lookup_insert_eq. }
  split; [exact Hloop|]. split; [exact Hloop|].
  set (ns := Namespace (Z.of_nat N) betafirm Vmat e V VV).
  destruct Hsh as [Hwfe Hse].
  unfold twice, bind at 1.
  rewrite (vectorized_update_run ns N st vV me) by done. cbn zeta.
  set (R := mat_init N N (update_entry (ns_betafirm ns) me vV)).
  set (T := Matrix N (replicate N vV)).
  set (VV1 := fresh (dom (mats st))).
  set (Vm1 := fresh (dom (<[VV1 := T]> (mats st)))).
  set (ms1 := <[Vm1 := R]> (<[VV1 := T]> (mats st))).
  assert (HVV1 : VV1 <> e) by (by eapply fresh_lookup_ne).
  assert (HVm1 : Vm1 <> e).
  { eapply fresh_lookup_ne. by rewrite lookup_insert_ne. }
  assert (He1 : ms1 !! e = Some me).
  { unfold ms1. by rewrite !lookup_insert_ne. }
  unfold bind at 1.
  rewrite (vectorized_update_run ns N (Store (vecs st) ms1) vV me) by done.
  cbn zeta. cbn [mats vecs]. fold T R.
  set (VV2 := fresh (dom ms1)).
  set (Vm2 := fresh (dom (<[VV2 := T]> ms1))).
  assert (H1 : ms1 !! Vm1 = Some R) by apply lookup_insert_eq.
  assert (HVV2 : VV2 <> Vm1) by (by eapply fresh_lookup_ne).
  assert (HVm2 : Vm2 <> Vm1).
  { eapply fresh_lookup_ne. rewrite lookup_insert_ne by done. exact H1. }
  unfold ret. eexists _, _, _, R. split; [reflexivity|]. cbn.
  split; [done|]. split; [|apply lookup_insert_eq].
  by rewrite !lookup_insert_ne.
Qed.

Lemma update_twice_same_result_witness :
  let V := 1%positive in let e := 2%positive in let Vmat := 1%positive in
  let betafirm := of_ratio 96 100 in let st := scenario_store in
  let sizek := Z.of_nat 3 in
  (exists r1 r2 st' m,
     twice (call_fresh (VFI_loop V e betafirm sizek) sizek) st = (Ok (r1, r2), st') /\
     r1 <> r2 /\ mats st' !! r1 = Some m /\ mats st' !! r2 = Some m) /\
  (exists r1 r2 st' m,
     twice (call_fresh
              (fun buf => naive_update (Namespace sizek betafirm buf e V None) ;;
                          ret buf) sizek) st = (Ok (r1, r2), st') /\
     r1 <> r2 /\ mats st' !! r1 = Some m /\ mats st' !! r2 = Some m) /\
  (exists ns1 ns2 st' m,
     twice (vectorized_update (Namespace sizek betafirm Vmat e V None)) st
       = (Ok (ns1, ns2), st') /\
     ns_Vmat ns1 <> ns_Vmat ns2 /\
     mats st' !! ns_Vmat ns1 = Some m /\ mats st' !! ns_Vmat ns2 = Some m).
Proof.
  intros V e Vmat betafirm st sizek.
  apply (update_twice_same_result V e Vmat betafirm 3 st scenario_V
           (mat_zeros 3 3) None);
    try reflexivity; (split; [repeat constructor|reflexivity]).
Defined.

(** ** The decimal literals

    [0.96], [1.92], [2.88] and [1e-9] as binary64 numbers [m * 2^e]; each
    is within half a unit in the last place of the decimal it stands for
    (for [0.96]: [|m / 2^53 - 96/100| <= 2^-54], cleared of fractions). *)
Example literal_0_96 :
  of_ratio 96 100 = S754_finite false 8646911284551352 (-53) /\
  2 * Z.abs (8646911284551352 * 100 - 96 * 2 ^ 53) <= 100.
Proof. split; [reflexivity|]. vm_compute. discriminate. Qed.

Example literal_1_92 :
  of_ratio 192 100 = S754_finite false 8646911284551352 (-52) /\
  2 * Z.abs (8646911284551352 * 100 - 192 * 2 ^ 52) <= 100.
Proof. split; [reflexivity|]. vm_compute. discriminate. Qed.

Example literal_2_88 :
  of_ratio 288 100 = S754_finite false 6485183463413514 (-51) /\
  2 * Z.abs (6485183463413514 * 100 - 288 * 2 ^ 51) <= 100.
Proof. split; [reflexivity|]. vm_compute. discriminate. Qed.

Example literal_1e_9 :
  tolerance = S754_finite false 4835703278458517 (-82) /\
  2 * Z.abs (4835703278458517 * 1000000000 - 2 ^ 82) <= 1000000000.
Proof. split; [reflexivity|]. vm_compute. discriminate. Qed.

(** The products behind the scenario's row, one by one. *)
Example scenario_products :
  add zero (mul (of_ratio 96 100) (of_Z 1)) = of_ratio 96 100 /\
  add zero (mul (of_ratio 96 100) (of_Z 2)) = of_ratio 192 100 /\
  add zero (mul (of_ratio 96 100) (of_Z 3)) = of_ratio 288 100.
Proof. repeat split; reflexivity. Qed.

(** Why C3 speaks of real-valued results: when an entry overflows, both
    updates produce the same infinity there, and the difference of two
    equal infinities is a NaN, which is below no tolerance. *)
Example overflow_distance_is_nan :
  let m := mat_init 1 1 (update_entry (of_ratio 96 100)
                           (Matrix 1 [[max_float]]) [max_float]) in
  m = Matrix 1 [[S754_infinity false]] /\
  all_finite m = false /\
  max_abs_diff m m = Some nan /\
  ltb nan tolerance = false.
Proof. repeat split; reflexivity. Qed.

(** The boundary of C4: a caller that passes one array as both [e] and
    [Vmat] makes it the output buffer, and the call writes it. *)
Example aliased_buffer_is_written :
  exists st',
    VFI_loop 1%positive 2%positive (of_ratio 96 100) 3 2%positive scenario_store
      = (Ok 2%positive, st') /\
    mats scenario_store !! 2%positive = Some (mat_zeros 3 3) /\
    mats st' !! 2%positive = Some scenario_result.
Proof. eexists. repeat split; vm_compute; reflexivity. Qed.

(** The second scenario of the specification: [N = 1], [betafirm = 0.5],
    [e = [[5]]], [V = [2]] gives [Vmat = [[6]]]. *)
Example scenario_one_by_one :
  exists st',
    VFI_loop 1%positive 2%positive (of_ratio 1 2) 1 1%positive
      (Store {[ 1%positive := [of_Z 2] ]}
             {[ 1%positive := mat_zeros 1 1; 2%positive := Matrix 1 [[of_Z 5]] ]})
      = (Ok 1%positive, st') /\
    mats st' !! 1%positive = Some (Matrix 1 [[of_Z 6]]).
Proof. eexists. repeat split; vm_compute; reflexivity. Qed.

(** * Further properties of the code *)

(** ** Loops over a non-positive size *)

Lemma VFI_loop_nonpos V e betafirm sizek Vmat st :
  sizek <= 0 -> VFI_loop V e betafirm sizek Vmat st = (Ok Vmat, st).
Proof. intros H. unfold VFI_loop. by rewrite range_nonpos. Qed.

Lemma vectorized_update_negative ns st (vV : vector) :
  ns_sizek ns < 0 -> vecs st !! ns_V ns = Some vV ->
  vectorized_update ns st = (Raise ValueError, st).
Proof.
  intros Hneg HV. unfold vectorized_update, bind at 1.
  unfold get_vec. rewrite HV. unfold bind at 1.
  unfold np_reshape_row. case_decide as H1.
  - unfold ret, bind, np_tile_rows.
    by replace (ns_sizek ns <? 0) with true by (symmetry; apply Z.ltb_lt; lia).
  - rewrite decide_False by lia. done.
Qed.

(** X1. A negative [sizek] splits the cells.  [range] of it is empty, so
    [VFI_loop] and the interpreted loop return normally and touch nothing,
    whatever the arrays are; [np.zeros] refuses it, so the initialisation
    raises [ValueError] before any array exists; and the vectorised update
    raises [ValueError] too ([np.reshape] for a size other than [-1],
    [np.tile] for [-1]), having allocated nothing. *)
Theorem negative_size_behaviour
    (V e Vmat : loc) (betafirm : f64) (sizek : Z) (VV : option loc)
    (st : store) (vV : vector) :
  sizek < 0 ->
  vecs st !! V = Some vV ->
  let ns := Namespace sizek betafirm Vmat e V VV in
  VFI_loop V e betafirm sizek Vmat st = (Ok Vmat, st) /\
  naive_update ns st = (Ok tt, st) /\
  initialize_grid sizek betafirm st = (Raise ValueError, st) /\
  cell1 sizek betafirm st = (Raise ValueError, st) /\
  vectorized_update ns st = (Raise ValueError, st).
Proof.
  intros Hneg HV ns.
  assert (Hloop : VFI_loop V e betafirm sizek Vmat st = (Ok Vmat, st))
    by (apply VFI_loop_nonpos; lia).
  assert (Hinit : initialize_grid sizek betafirm st = (Raise ValueError, st)).
  { unfold initialize_grid, bind, np_zeros2.
    by replace (sizek <? 0) with true by (symmetry; apply Z.ltb_lt; lia). }
  split; [done|]. split; [by apply (naive_update_of_VFI_loop ns)|].
  split; [done|]. split; [unfold cell1, bind; by rewrite Hinit|].
  by apply (vectorized_update_negative ns st vV).
Qed.

Lemma negative_size_behaviour_witness :
  let ns := Namespace (-1) (of_ratio 96 100) 1%positive 2%positive 1%positive None in
  VFI_loop 1%positive 2%positive (of_ratio 96 100) (-1) 1%positive scenario_store
    = (Ok 1%positive, scenario_store) /\
  naive_update ns scenario_store = (Ok tt, scenario_store) /\
  initialize_grid (-1) (of_ratio 96 100) scenario_store
    = (Raise ValueError, scenario_store) /\
  cell1 (-1) (of_ratio 96 100) scenario_store = (Raise ValueError, scenario_store) /\
  vectorized_update ns scenario_store = (Raise ValueError, scenario_store).
Proof.
  apply (negative_size_behaviour 1%positive 2%positive 1%positive (of_ratio 96 100)
           (-1) None scenario_store scenario_V); [lia|reflexivity].
Defined.

(** ** Arrays larger than the grid *)

Lemma mat_lookup_block N f m a b :
  mat_lookup (mat_update_where (fun a b => (a <? N)%nat && (b <? N)%nat) f m) a b
  = if decide ((a < N)%nat /\ (b < N)%nat)
    then (fun _ => f a b) <$> mat_lookup m a b
    else mat_lookup m a b.
Proof.
  rewrite mat_lookup_update_where.
  destruct (Nat.ltb_spec a N), (Nat.ltb_spec b N); cbn -[decide].
  - by rewrite decide_True.
  - rewrite decide_False by lia. by destruct (mat_lookup m a b).
  - rewrite decide_False by lia. by destruct (mat_lookup m a b).
  - rewrite decide_False by lia. by destruct (mat_lookup m a b).
Qed.

(** X2. On arrays that are at least [N] long on every indexed axis, the
    loop rewrites the leading [N]-by-[N] block of the output buffer and
    nothing else: the buffer keeps its shape, an entry inside the block
    becomes [e[i][j] + betafirm * V[j]] and an entry outside it keeps the
    value it had. *)
Theorem VFI_loop_writes_leading_block
    (V e Vmat : loc) (betafirm : f64) (N : nat) (st : store)
    (vV : vector) (me mV : matrix) :
  vecs st !! V = Some vV ->
  mats st !! e = Some me ->
  mats st !! Vmat = Some mV ->
  mat_wf me -> mat_wf mV ->
  fits N vV me mV ->
  exists st' mV',
    VFI_loop V e betafirm (Z.of_nat N) Vmat st = (Ok Vmat, st') /\
    mats st' !! Vmat = Some mV' /\
    mat_wf mV' /\ shape mV' = shape mV /\
    (forall i j, (i < N)%nat -> (j < N)%nat ->
       mat_lookup mV' i j = Some (update_entry betafirm me vV i j)) /\
    (forall i j, ~ ((i < N)%nat /\ (j < N)%nat) ->
       mat_lookup mV' i j = mat_lookup mV i j).
Proof.
  intros HV He HVmat Hwfe HwfV Hfits.
  assert (Hrun := VFI_loop_fits V e Vmat betafirm N st vV me mV
                    HV He HVmat Hwfe HwfV Hfits).
  eexists _, _. split; [exact Hrun|]. cbn [mats].
  split; [apply lookup_insert_eq|]. split; [by apply mat_wf_update_where|].
  split; [unfold shape; by rewrite nrows_update_where|].
  destruct Hfits as (_ & _ & _ & Hr & Hc). split.
  - intros i j Hi Hj. rewrite mat_lookup_block, decide_True by done.
    rewrite (mat_lookup_is_Some mV) by (done || lia). done.
  - intros i j Hout. by rewrite mat_lookup_block, decide_False.
Qed.

Lemma VFI_loop_writes_leading_block_witness :
  exists st' mV',
    VFI_loop 1%positive 2%positive (of_ratio 96 100) (Z.of_nat 2) 1%positive
      wide_store = (Ok 1%positive, st') /\
    mats st' !! 1%positive = Some mV' /\
    mat_wf mV' /\ shape mV' = shape (mat_zeros 3 3) /\
    (forall i j, (i < 2)%nat -> (j < 2)%nat ->
       mat_lookup mV' i j
       = Some (update_entry (of_ratio 96 100) (mat_zeros 3 5) scenario_V i j)) /\
    (forall i j, ~ ((i < 2)%nat /\ (j < 2)%nat) ->
       mat_lookup mV' i j = mat_lookup (mat_zeros 3 3) i j).
Proof.
  apply (VFI_loop_writes_leading_block 1%positive 2%positive 1%positive
           (of_ratio 96 100) 2 wide_store scenario_V (mat_zeros 3 5) (mat_zeros 3 3));
    try reflexivity; repeat constructor.
Defined.

(** ** What a run of the loop never does *)

Section RespectsLoop.
Variable R : store -> store -> Prop.
Hypothesis R_refl : forall st, R st st.
Hypothesis R_trans : forall st1 st2 st3, R st1 st2 -> R st2 st3 -> R st1 st3.


End RespectsLoop.













(** ** Running the loop again on its own result *)

Lemma mat_update_where_twice p f m :
  mat_update_where p f (mat_update_where p f m) = mat_update_where p f m.
Proof.
  unfold mat_update_where. cbn. f_equal. apply list_eq. intros a.
  rewrite !list_lookup_imap. destruct (mrows m !! a) as [r|]; cbn; [|done].
  f_equal. apply list_eq. intros b. rewrite !list_lookup_imap.
  destruct (r !! b) as [x|]; cbn; [|done]. by destruct (p a b).
Qed.

(** X4. When [e] is not the output buffer, a second call of [VFI_loop] on
    the buffer the first call has filled changes nothing: it returns
    normally and leaves the store as the first call left it. *)
Theorem VFI_loop_again_is_identity
    (V e Vmat : loc) (betafirm : f64) (N : nat) (st : store)
    (vV : vector) (me mV : matrix) :
  vecs st !! V = Some vV ->
  mats st !! e = Some me ->
  mats st !! Vmat = Some mV ->
  e <> Vmat ->
  mat_wf me -> mat_wf mV ->
  fits N vV me mV ->
  exists st',
    VFI_loop V e betafirm (Z.of_nat N) Vmat st = (Ok Vmat, st') /\
    VFI_loop V e betafirm (Z.of_nat N) Vmat st' = (Ok Vmat, st').
Proof.
  intros HV He HVmat Hne Hwfe HwfV Hfits.
  assert (Hrun := VFI_loop_fits V e Vmat betafirm N st vV me mV
                    HV He HVmat Hwfe HwfV Hfits).
  eexists. split; [exact Hrun|].
  set (mV' := mat_update_where (fun a b => (a <? N)%nat && (b <? N)%nat)
                (update_entry betafirm me vV) mV).
  rewrite (VFI_loop_fits V e Vmat betafirm N _ vV me mV'); cbn [vecs mats].
  - unfold mV'. by rewrite mat_update_where_twice, insert_insert_eq.
  - done.
  - by rewrite lookup_insert_ne.
  - apply lookup_insert_eq.
  - done.
  - by apply mat_wf_update_where.
  - unfold fits in *. unfold mV'. rewrite nrows_update_where. cbn [ncols mat_update_where].
    done.
Qed.

Lemma VFI_loop_again_is_identity_witness :
  exists st',
    VFI_loop 1%positive 2%positive (of_ratio 96 100) (Z.of_nat 3) 1%positive
      scenario_store = (Ok 1%positive, st') /\
    VFI_loop 1%positive 2%positive (of_ratio 96 100) (Z.of_nat 3) 1%positive st'
      = (Ok 1%positive, st').
Proof.
  apply (VFI_loop_again_is_identity 1%positive 2%positive 1%positive
           (of_ratio 96 100) 3 scenario_store scenario_V
           (mat_zeros 3 3) (mat_zeros 3 3));
    try reflexivity; try discriminate; repeat constructor.
Defined.

(** ** Broadcasting in cell 3 *)

Lemma bc_index_broadcast a N r i :
  broadcast_dim a N = Some r -> (i < r)%nat -> (bc_index N i < N)%nat.
Proof.
  unfold broadcast_dim, bc_index. intros H Hi.
  repeat case_decide; simplify_eq; lia.
Qed.

Lemma mat_add_tiled_broadcast betafirm (me : matrix) (v : vector) (N r c : nat) st :
  length v = N ->
  broadcast_dim (nrows me) N = Some r -> broadcast_dim (ncols me) N = Some c ->
  mat_add me (scalar_mul betafirm (Matrix N (replicate N v))) st
  = (Ok (mat_init r c (fun i j =>
           add (mat_entry me (bc_index (nrows me) i) (bc_index (ncols me) j))
               (mul betafirm (default nan (v !! bc_index N j))))), st).
Proof.
  intros Hv Hr Hc. unfold mat_add. rewrite nrows_scaled_tile.
  cbn [ncols scalar_mul]. rewrite Hr, Hc. unfold ret. do 2 f_equal.
  apply mat_init_ext. intros i j Hi Hj. f_equal.
  subst N. apply mat_entry_scaled_tile.
  - by apply (bc_index_broadcast (nrows me) _ r).
  - by apply (bc_index_broadcast (ncols me) _ c).
Qed.

(** Cell 3 on an [e] whose axes broadcast against [N]. *)
Lemma vectorized_update_broadcast_run
    (ns : namespace) (N r c : nat) (st : store) (vV : vector) (me : matrix) :
  ns_sizek ns = Z.of_nat N ->
  vecs st !! ns_V ns = Some vV ->
  mats st !! ns_e ns = Some me ->
  length vV = N ->
  broadcast_dim (nrows me) N = Some r ->
  broadcast_dim (ncols me) N = Some c ->
  let VV := fresh (dom (mats st)) in
  let ms1 := <[VV := Matrix N (replicate N vV)]> (mats st) in
  let Vmat' := fresh (dom ms1) in
  let sum := mat_init r c (fun i j =>
               add (mat_entry me (bc_index (nrows me) i) (bc_index (ncols me) j))
                   (mul (ns_betafirm ns) (default nan (vV !! bc_index N j)))) in
  vectorized_update ns st
  = (Ok (Namespace (ns_sizek ns) (ns_betafirm ns) Vmat' (ns_e ns) (ns_V ns) (Some VV)),
     Store (vecs st) (<[Vmat' := sum]> ms1)).
Proof.
  intros Hsz HV He Hlen Hr Hc VV ms1 Vmat' sum.
  rewrite (vectorized_update_steps ns N st vV me) by done. cbn zeta.
  unfold bind at 1.
  rewrite (mat_add_tiled_broadcast _ me vV N r c) by done. done.
Qed.

(** X5. Whenever an axis of [e] is either of extent [N] or of extent 1 (or
    [N] itself is 1), the vectorised update returns normally, and its result
    has the broadcast shape, which need not be [N]-by-[N]: entry [(i, j)] is
    [e[i'][j'] + betafirm * V[j'']], an index on an axis of extent 1 being
    read as 0. *)
Theorem vectorized_update_broadcasts
    (ns : namespace) (N r c : nat) (st : store) (vV : vector) (me : matrix) :
  ns_sizek ns = Z.of_nat N ->
  vecs st !! ns_V ns = Some vV ->
  mats st !! ns_e ns = Some me ->
  length vV = N ->
  broadcast_dim (nrows me) N = Some r ->
  broadcast_dim (ncols me) N = Some c ->
  exists ns' st' m,
    vectorized_update ns st = (Ok ns', st') /\
    mats st' !! ns_Vmat ns' = Some m /\
    has_shape r c m /\
    forall i j, (i < r)%nat -> (j < c)%nat ->
      mat_lookup m i j
      = Some (add (mat_entry me (bc_index (nrows me) i) (bc_index (ncols me) j))
                  (mul (ns_betafirm ns) (default nan (vV !! bc_index N j)))).
Proof.
  intros Hsz HV He Hlen Hr Hc.
  assert (Hrun := vectorized_update_broadcast_run ns N r c st vV me
                    Hsz HV He Hlen Hr Hc).
  cbn zeta in Hrun.
  eexists _, _, _. split; [exact Hrun|].
  cbn [mats ns_Vmat]. split; [apply lookup_insert_eq|].
  split; [apply has_shape_init|].
  intros i j Hi Hj. by rewrite mat_lookup_init.
Qed.

Lemma vectorized_update_broadcasts_witness :
  exists ns' st' m,
    vectorized_update
      (Namespace 3 (of_ratio 96 100) 1%positive 2%positive 1%positive None)
      (Store {[ 1%positive := scenario_V ]}
             {[ 1%positive := mat_zeros 3 3; 2%positive := mat_zeros 1 3 ]})
      = (Ok ns', st') /\
    mats st' !! ns_Vmat ns' = Some m /\
    has_shape 3 3 m /\
    forall i j, (i < 3)%nat -> (j < 3)%nat ->
      mat_lookup m i j
      = Some (add (mat_entry (mat_zeros 1 3) (bc_index (nrows (mat_zeros 1 3)) i)
                     (bc_index (ncols (mat_zeros 1 3)) j))
                  (mul (of_ratio 96 100) (default nan (scenario_V !! bc_index 3 j)))).
Proof.
  apply (vectorized_update_broadcasts
           (Namespace 3 (of_ratio 96 100) 1%positive 2%positive 1%positive None)
           3 3 3
           (Store {[ 1%positive := scenario_V ]}
                  {[ 1%positive := mat_zeros 3 3; 2%positive := mat_zeros 1 3 ]})
           scenario_V (mat_zeros 1 3)); reflexivity.
Defined.

(** X6. Outside the contract the updates part ways.  On an [e] that is a
    single row of length [N], with [N] at least 2, the vectorised update
    returns normally, every row of its result being
    [e[0][j] + betafirm * V[j]], while the interpreted loop of cell 1 on the
    same arrays raises [IndexError]. *)
Theorem one_row_e_splits_the_updates
    (V e Vmat : loc) (betafirm : f64) (N : nat) (st : store)
    (vV : vector) (me mV : matrix) (VV : option loc) :
  vecs st !! V = Some vV ->
  mats st !! e = Some me ->
  mats st !! Vmat = Some mV ->
  (2 <= N)%nat -> length vV = N -> has_shape 1 N me -> has_shape N N mV ->
  let ns := Namespace (Z.of_nat N) betafirm Vmat e V VV in
  (exists ns' st' m,
     vectorized_update ns st = (Ok ns', st') /\
     mats st' !! ns_Vmat ns' = Some m /\
     has_shape N N m /\
     forall i j, (i < N)%nat -> (j < N)%nat ->
       mat_lookup m i j
       = Some (add (mat_entry me 0 j) (mul betafirm (default nan (vV !! j))))) /\
  (exists st', naive_update ns st = (Raise IndexError, st')).
Proof.
  intros HV He HVmat HN Hlen [Hwfe Hse] [HwfV HsV] ns.
  unfold shape in Hse, HsV. injection Hse as Hre Hce. injection HsV as HrV HcV.
  split.
  - assert (Hbr : broadcast_dim (nrows me) N = Some N).
    { rewrite Hre. unfold broadcast_dim.
      rewrite decide_False by lia. by rewrite decide_True. }
    assert (Hbc : broadcast_dim (ncols me) N = Some N)
      by (rewrite Hce; apply broadcast_dim_same).
    assert (Hrun := vectorized_update_broadcast_run ns N N N st vV me
                      eq_refl HV He Hlen Hbr Hbc).
    cbn zeta in Hrun.
    eexists _, _, _. split; [exact Hrun|].
    cbn [mats ns_Vmat]. split; [apply lookup_insert_eq|].
    split; [apply has_shape_init|].
    intros i j Hi Hj. rewrite mat_lookup_init by done.
    rewrite Hre, Hce. unfold bc_index at 1. rewrite decide_True by done.
    by rewrite !bc_index_lt.
  - destruct (naive_update_too_small V e Vmat betafirm N st vV me mV
                HV He HVmat Hwfe HwfV VV) as (i & k & _ & _ & _ & _ & Hrun).
    + unfold fits. lia.
    + eauto.
Qed.

Lemma one_row_e_splits_the_updates_witness :
  let st := Store {[ 1%positive := scenario_V ]}
                  {[ 1%positive := mat_zeros 3 3; 2%positive := mat_zeros 1 3 ]} in
  let ns := Namespace (Z.of_nat 3) (of_ratio 96 100) 1%positive 2%positive
              1%positive None in
  (exists ns' st' m,
     vectorized_update ns st = (Ok ns', st') /\
     mats st' !! ns_Vmat ns' = Some m /\
     has_shape 3 3 m /\
     forall i j, (i < 3)%nat -> (j < 3)%nat ->
       mat_lookup m i j
       = Some (add (mat_entry (mat_zeros 1 3) 0 j)
                   (mul (of_ratio 96 100) (default nan (scenario_V !! j))))) /\
  (exists st', naive_update ns st = (Raise IndexError, st')).
Proof.
  intros st ns.
  apply (one_row_e_splits_the_updates 1%positive 2%positive 1%positive
           (of_ratio 96 100) 3 st scenario_V (mat_zeros 1 3) (mat_zeros 3 3) None);
    try reflexivity; try lia; (split; [repeat constructor|reflexivity]).
Defined.

(** ** What cell 3 allocates *)

(** X7. On well-formed input, cell 3 binds [VV] to a new [N]-by-[N] array
    each of whose rows is [V] (the comment of the source: "each row is the
    same") and [Vmat] to a second new array; neither object existed before,
    and the array that [Vmat] named until then is left as it was. *)
Theorem vectorized_update_builds_VV
    (ns : namespace) (N : nat) (st : store) (vV : vector) (me mV : matrix) :
  ns_sizek ns = Z.of_nat N ->
  vecs st !! ns_V ns = Some vV ->
  mats st !! ns_e ns = Some me ->
  mats st !! ns_Vmat ns = Some mV ->
  length vV = N -> has_shape N N me ->
  exists ns' st' VV tiled,
    vectorized_update ns st = (Ok ns', st') /\
    ns_VV ns' = Some VV /\
    mats st' !! VV = Some tiled /\
    has_shape N N tiled /\
    (forall i, (i < N)%nat -> mrows tiled !! i = Some vV) /\
    VV <> ns_Vmat ns' /\
    mats st !! VV = None /\ mats st !! ns_Vmat ns' = None /\
    mats st' !! ns_Vmat ns = Some mV /\
    ns_V ns' = ns_V ns /\ ns_e ns' = ns_e ns.
Proof.
  intros Hsz HV He Hold Hlen [Hwfe Hse].
  assert (Hrun := vectorized_update_run ns N st vV me Hsz HV He Hlen Hse).
  cbn zeta in Hrun.
  set (VV := fresh (dom (mats st))) in *.
  set (T := Matrix N (replicate N vV)) in *.
  set (Vm := fresh (dom (<[VV := T]> (mats st)))) in *.
  assert (HVm : Vm <> VV) by apply fresh_insert_ne.
  assert (HVV : mats st !! VV = None) by apply alloc_mat_fresh.
  assert (HVm' : (<[VV := T]> (mats st)) !! Vm = None)
    by apply not_elem_of_dom, is_fresh.
  rewrite lookup_insert_ne in HVm' by done.
  eexists _, _, VV, T. split; [exact Hrun|]. cbn [ns_VV ns_Vmat ns_V ns_e mats].
  split; [done|].
  split; [rewrite lookup_insert_ne by done; apply lookup_insert_eq|].
  split.
  { split.
    - apply Forall_forall. by intros r [-> _]%elem_of_replicate.
    - unfold shape, nrows. cbn. by rewrite length_replicate. }
  split; [intros i Hi; cbn; by apply lookup_replicate_2|].
  split; [done|]. split; [done|]. split; [done|]. split; [|done].
  rewrite !lookup_insert_ne; [done| |]; intros Heq; congruence.
Qed.

Lemma vectorized_update_builds_VV_witness :
  exists ns' st' VV tiled,
    vectorized_update scenario_ns scenario_store = (Ok ns', st') /\
    ns_VV ns' = Some VV /\
    mats st' !! VV = Some tiled /\
    has_shape 3 3 tiled /\
    (forall i, (i < 3)%nat -> mrows tiled !! i = Some scenario_V) /\
    VV <> ns_Vmat ns' /\
    mats scenario_store !! VV = None /\ mats scenario_store !! ns_Vmat ns' = None /\
    mats st' !! ns_Vmat scenario_ns = Some (mat_zeros 3 3) /\
    ns_V ns' = ns_V scenario_ns /\ ns_e ns' = ns_e scenario_ns.
Proof.
  apply (vectorized_update_builds_VV scenario_ns 3 scenario_store scenario_V
           (mat_zeros 3 3) (mat_zeros 3 3));
    try reflexivity; (split; [repeat constructor|reflexivity]).
Defined.

(** ** Cell 1 and the notebook, whole *)

Lemma zero_plus_scaled_zero betafirm :
  is_finite betafirm = true -> add zero (mul betafirm zero) = zero.
Proof. by destruct betafirm as [[]|[]| |[] m e]. Qed.

Lemma mat_entry_zeros r c i j :
  (i < r)%nat -> (j < c)%nat -> mat_entry (mat_zeros r c) i j = zero.
Proof.
  intros Hi Hj. unfold mat_entry, mat_zeros. cbn.
  rewrite lookup_replicate_2 by done. cbn. by rewrite lookup_replicate_2.
Qed.

Lemma mat_init_const r c x :
  mat_init r c (fun _ _ => x) = Matrix c (replicate r (replicate c x)).
Proof.
  unfold mat_init. f_equal. apply list_eq. intros i.
  rewrite list_lookup_fmap.
  assert (Hrow : (fun _ : nat => x) <$> seq 0 c = replicate c x).
  { apply list_eq. intros j. rewrite list_lookup_fmap.
    destruct (decide (j < c)%nat).
    - by rewrite lookup_seq_lt, lookup_replicate_2.
    - rewrite lookup_seq_ge by lia. symmetry. apply lookup_replicate_None. lia. }
  destruct (decide (i < r)%nat).
  - rewrite lookup_seq_lt, lookup_replicate_2 by done. cbn. by rewrite Hrow.
  - rewrite lookup_seq_ge by lia. symmetry. apply lookup_replicate_None. lia.
Qed.

(** The update of all-zero arrays. *)
Lemma update_of_zeros betafirm N :
  mat_init N N (update_entry betafirm (mat_zeros N N) (replicate N zero))
  = Matrix N (replicate N (replicate N (add zero (mul betafirm zero)))).
Proof.
  rewrite <- mat_init_const. apply mat_init_ext. intros i j Hi Hj.
  unfold update_entry. rewrite mat_entry_zeros by done.
  by rewrite lookup_replicate_2.
Qed.

Lemma update_of_zeros_finite betafirm N :
  is_finite betafirm = true ->
  mat_init N N (update_entry betafirm (mat_zeros N N) (replicate N zero))
  = mat_zeros N N.
Proof. intros H. by rewrite update_of_zeros, zero_plus_scaled_zero. Qed.

Lemma initialize_grid_run (sizek : Z) betafirm st :
  0 <= sizek ->
  let N := Z.to_nat sizek in
  let a := fresh (dom (mats st)) in
  let b := fresh (dom (<[a := mat_zeros N N]> (mats st))) in
  let c := fresh (dom (vecs st)) in
  initialize_grid sizek betafirm st
  = (Ok (Namespace sizek betafirm a b c None),
     Store (<[c := replicate N zero]> (vecs st))
           (<[b := mat_zeros N N]> (<[a := mat_zeros N N]> (mats st)))).
Proof.
  intros Hpos N a b c. unfold initialize_grid.
  unfold bind at 1. rewrite np_zeros2_run by lia.
  unfold bind at 1. rewrite np_zeros2_run by lia. cbn [mats vecs].
  unfold bind at 1. rewrite np_zeros1_run by lia. done.
Qed.

Lemma cell1_run (sizek : Z) betafirm st :
  0 <= sizek ->
  let N := Z.to_nat sizek in
  let a := fresh (dom (mats st)) in
  let b := fresh (dom (<[a := mat_zeros N N]> (mats st))) in
  let c := fresh (dom (vecs st)) in
  let R := mat_init N N (update_entry betafirm (mat_zeros N N) (replicate N zero)) in
  cell1 sizek betafirm st
  = (Ok (Namespace sizek betafirm a b c None),
     Store (<[c := replicate N zero]> (vecs st))
           (<[a := R]> (<[b := mat_zeros N N]> (<[a := mat_zeros N N]> (mats st))))).
Proof.
  intros Hpos N a b c R. unfold cell1, bind at 1.
  rewrite initialize_grid_run by done. fold N a b c.
  assert (Hab : b <> a) by apply fresh_insert_ne.
  destruct (zero_matrix_zeros N) as [[Hwfz Hsz] _].
  set (ns := Namespace sizek betafirm a b c None).
  set (st1 := Store _ _).
  assert (Hloop : naive_update ns st1
                  = (Ok tt, Store (vecs st1) (<[a := R]> (mats st1)))).
  { apply naive_update_of_VFI_loop. cbn [ns_V ns_e ns_betafirm ns_sizek ns_Vmat ns].
    rewrite <- (Z2Nat.id sizek) by done. fold N.
    apply (VFI_loop_square c b a betafirm N st1 (replicate N zero)
             (mat_zeros N N) (mat_zeros N N)); try done; cbn.
    - apply lookup_insert_eq.
    - apply lookup_insert_eq.
    - rewrite lookup_insert_ne by done. apply lookup_insert_eq.
    - apply length_replicate. }
  unfold bind. by rewrite Hloop.
Qed.

Lemma fresh_vec_lookup_ne (vs : gmap loc (list f64)) l (v : vector) :
  vs !! l = Some v -> fresh (dom vs) <> l.
Proof.
  intros Hl Heq. apply (is_fresh (dom vs)). rewrite Heq.
  apply elem_of_dom. eauto.
Qed.

(** X8. For any size that is not negative, cell 1 as a whole returns
    normally: it creates [Vmat], [e] and [V], leaves [e] and [V] all zero
    and every array that existed as it was, and fills every entry of [Vmat]
    with [0.0 + betafirm * 0.0], which is [0.0] for every real-valued
    [betafirm], of either sign. *)
Theorem cell1_result (sizek : Z) (betafirm : f64) (st : store) :
  0 <= sizek ->
  let N := Z.to_nat sizek in
  exists ns st',
    cell1 sizek betafirm st = (Ok ns, st') /\
    vecs st' !! ns_V ns = Some (replicate N zero) /\
    mats st' !! ns_e ns = Some (mat_zeros N N) /\
    mats st' !! ns_Vmat ns
      = Some (Matrix N (replicate N (replicate N (add zero (mul betafirm zero))))) /\
    (is_finite betafirm = true -> mats st' !! ns_Vmat ns = Some (mat_zeros N N)) /\
    ns_e ns <> ns_Vmat ns /\
    mats st !! ns_e ns = None /\ mats st !! ns_Vmat ns = None /\
    vecs st !! ns_V ns = None /\
    extends st st'.
Proof.
  intros Hpos N. rewrite cell1_run by done. cbn zeta. fold N.
  set (a := fresh (dom (mats st))).
  set (b := fresh (dom (<[a := mat_zeros N N]> (mats st)))).
  set (c := fresh (dom (vecs st))).
  assert (Hab : b <> a) by apply fresh_insert_ne.
  assert (Ha : mats st !! a = None) by apply alloc_mat_fresh.
  assert (Hb : mats st !! b = None).
  { assert (H : (<[a := mat_zeros N N]> (mats st)) !! b = None)
      by apply not_elem_of_dom, is_fresh.
    by rewrite lookup_insert_ne in H. }
  assert (Hc : vecs st !! c = None) by apply not_elem_of_dom, is_fresh.
  eexists _, _. split; [reflexivity|]. cbn [ns_V ns_e ns_Vmat vecs mats].
  split; [apply lookup_insert_eq|].
  split; [by rewrite lookup_insert_ne, lookup_insert_eq by congruence|].
  split; [rewrite lookup_insert_eq; by rewrite update_of_zeros|].
  split; [intros Hfin; rewrite lookup_insert_eq; by rewrite update_of_zeros_finite|].
  split; [done|]. split; [done|]. split; [done|]. split; [done|].
  split.
  - intros l v Hl. cbn. rewrite lookup_insert_ne; [done|]. intros <-. congruence.
  - intros l m Hl. cbn.
    rewrite !lookup_insert_ne; [done| | |]; intros <-; congruence.
Qed.

Lemma cell1_result_witness :
  exists ns st',
    cell1 3 (of_ratio 96 100) scenario_store = (Ok ns, st') /\
    vecs st' !! ns_V ns = Some (replicate (Z.to_nat 3) zero) /\
    mats st' !! ns_e ns = Some (mat_zeros (Z.to_nat 3) (Z.to_nat 3)) /\
    mats st' !! ns_Vmat ns
      = Some (Matrix (Z.to_nat 3)
                (replicate (Z.to_nat 3)
                   (replicate (Z.to_nat 3) (add zero (mul (of_ratio 96 100) zero))))) /\
    (is_finite (of_ratio 96 100) = true ->
     mats st' !! ns_Vmat ns = Some (mat_zeros (Z.to_nat 3) (Z.to_nat 3))) /\
    ns_e ns <> ns_Vmat ns /\
    mats scenario_store !! ns_e ns = None /\
    mats scenario_store !! ns_Vmat ns = None /\
    vecs scenario_store !! ns_V ns = None /\
    extends scenario_store st'.
Proof. apply (cell1_result 3 (of_ratio 96 100) scenario_store). lia. Defined.

(** The three cells one after the other, store by store. *)
Lemma notebook_cells (sizek : Z) (betafirm : f64) (st : store) :
  0 <= sizek ->
  let N := Z.to_nat sizek in
  let R := Matrix N (replicate N (replicate N (add zero (mul betafirm zero)))) in
  exists ns1 st1 ns3 st3 VV,
    cell1 sizek betafirm st = (Ok ns1, st1) /\
    vectorized_update ns1 st1 = (Ok ns3, st3) /\
    cell7 ns3 st3 = (Ok ns3, st3) /\
    ns_Vmat ns1 <> ns_Vmat ns3 /\
    mats st3 !! ns_Vmat ns1 = Some R /\
    mats st3 !! ns_Vmat ns3 = Some R /\
    ns_VV ns3 = Some VV /\ mats st3 !! VV = Some (mat_zeros N N) /\
    mats st3 !! ns_e ns3 = Some (mat_zeros N N) /\
    vecs st3 !! ns_V ns3 = Some (replicate N zero).
Proof.
  intros Hpos N R.
  assert (Hc1 := cell1_run sizek betafirm st Hpos). cbn zeta in Hc1. fold N in Hc1.
  rewrite update_of_zeros in Hc1. fold R in Hc1.
  set (a := fresh (dom (mats st))) in *.
  set (b := fresh (dom (<[a := mat_zeros N N]> (mats st)))) in *.
  set (c := fresh (dom (vecs st))) in *.
  set (ns1 := Namespace sizek betafirm a b c None) in *.
  set (vs1 := <[c := replicate N zero]> (vecs st)) in *.
  set (ms1 := <[a := R]> (<[b := mat_zeros N N]> (<[a := mat_zeros N N]> (mats st)))) in *.
  assert (Hab : b <> a) by apply fresh_insert_ne.
  destruct (zero_matrix_zeros N) as [[Hwfz Hsz] _].
  assert (HV1 : vs1 !! c = Some (replicate N zero)) by apply lookup_insert_eq.
  assert (He1 : ms1 !! b = Some (mat_zeros N N)).
  { unfold ms1. rewrite lookup_insert_ne by congruence. apply lookup_insert_eq. }
  assert (Ha1 : ms1 !! a = Some R) by apply lookup_insert_eq.
  assert (Hsize : sizek = Z.of_nat N) by (unfold N; lia).
  assert (Hc3 := vectorized_update_run ns1 N (Store vs1 ms1) (replicate N zero)
                   (mat_zeros N N) Hsize HV1 He1 (length_replicate N zero) Hsz).
  cbn zeta in Hc3. cbn [mats vecs ns_sizek ns_betafirm ns_e ns_V ns1] in Hc3.
  rewrite update_of_zeros in Hc3. fold R in Hc3.
  change (Matrix N (replicate N (replicate N zero))) with (mat_zeros N N) in Hc3.
  set (VV := fresh (dom ms1)) in *.
  set (ms2 := <[VV := mat_zeros N N]> ms1) in *.
  set (Vm := fresh (dom ms2)) in *.
  set (ns3 := Namespace sizek betafirm Vm b c (Some VV)) in *.
  set (st3 := Store vs1 (<[Vm := R]> ms2)) in *.
  assert (HVVa : VV <> a) by (by eapply fresh_lookup_ne).
  assert (HVVb : VV <> b) by (by eapply fresh_lookup_ne).
  assert (HVmVV : Vm <> VV) by apply fresh_insert_ne.
  assert (HVma : Vm <> a).
  { eapply fresh_lookup_ne. unfold ms2. rewrite lookup_insert_ne by congruence. exact Ha1. }
  assert (HVmb : Vm <> b).
  { eapply fresh_lookup_ne. unfold ms2. rewrite lookup_insert_ne by congruence. exact He1. }
  assert (HR : has_shape N N R).
  { unfold R. rewrite <- mat_init_const. apply has_shape_init. }
  assert (He3 : mats st3 !! b = Some (mat_zeros N N)).
  { cbn. unfold ms2. by rewrite !lookup_insert_ne by congruence. }
  assert (HVm3 : mats st3 !! Vm = Some R) by (cbn; apply lookup_insert_eq).
  assert (Hloop : VFI_loop c b betafirm sizek Vm st3 = (Ok Vm, st3)).
  { rewrite Hsize.
    rewrite (VFI_loop_square c b Vm betafirm N st3 (replicate N zero)
               (mat_zeros N N) R); try done; try apply HR.
    - rewrite update_of_zeros. fold R. unfold st3. cbn [vecs mats].
      by rewrite insert_insert_eq.
    - apply length_replicate. }
  assert (Hc7 : cell7 ns3 st3 = (Ok ns3, st3)).
  { unfold cell7, bind. cbn [ns_V ns_e ns_betafirm ns_sizek ns_Vmat ns3].
    by rewrite Hloop. }
  exists ns1, (Store vs1 ms1), ns3, st3, VV.
  split; [exact Hc1|]. split; [exact Hc3|]. split; [exact Hc7|].
  split; [cbn; congruence|].
  split; [cbn; unfold ms2; by rewrite !lookup_insert_ne by congruence|].
  split; [done|].
  split; [done|].
  split; [cbn; unfold ms2; by rewrite lookup_insert_ne, lookup_insert_eq by congruence|].
  split; done.
Qed.

(** X9. Run top to bottom on any size that is not negative, the notebook
    ends normally.  Cell 3 rebinds [Vmat] to a new array, so the buffer
    that cell 1 filled stays behind, unnamed and intact; cell 7 then
    rewrites cell 3's array in place with the values it already holds and
    so changes nothing.  At the end the three results are one and the same
    matrix, all [0.0] for a real-valued [betafirm], [VV] is all zero, and so
    are [e] and [V]. *)
Theorem notebook_result (sizek : Z) (betafirm : f64) (st : store) :
  0 <= sizek ->
  let N := Z.to_nat sizek in
  let R := Matrix N (replicate N (replicate N (add zero (mul betafirm zero)))) in
  exists ns1 st1 ns3 st3 VV,
    cell1 sizek betafirm st = (Ok ns1, st1) /\
    vectorized_update ns1 st1 = (Ok ns3, st3) /\
    cell7 ns3 st3 = (Ok ns3, st3) /\
    notebook sizek betafirm st = (Ok ns3, st3) /\
    ns_Vmat ns1 <> ns_Vmat ns3 /\
    mats st3 !! ns_Vmat ns1 = Some R /\
    mats st3 !! ns_Vmat ns3 = Some R /\
    (is_finite betafirm = true -> R = mat_zeros N N) /\
    ns_VV ns3 = Some VV /\ mats st3 !! VV = Some (mat_zeros N N) /\
    mats st3 !! ns_e ns3 = Some (mat_zeros N N) /\
    vecs st3 !! ns_V ns3 = Some (replicate N zero).
Proof.
  intros Hpos N R.
  destruct (notebook_cells sizek betafirm st Hpos)
    as (ns1 & st1 & ns3 & st3 & VV & Hc1 & Hc3 & Hc7 & Hne & Hbuf & HVm & Hrest).
  exists ns1, st1, ns3, st3, VV.
  split; [exact Hc1|]. split; [exact Hc3|]. split; [exact Hc7|].
  split; [unfold notebook, bind; by rewrite Hc1, Hc3|].
  split; [exact Hne|]. split; [exact Hbuf|]. split; [exact HVm|].
  split; [intros Hfin; unfold R; by rewrite zero_plus_scaled_zero|].
  exact Hrest.
Qed.

Lemma notebook_result_witness :
  let sizek := 3 in let betafirm := of_ratio 96 100 in let st := scenario_store in
  let N := Z.to_nat sizek in
  let R := Matrix N (replicate N (replicate N (add zero (mul betafirm zero)))) in
  exists ns1 st1 ns3 st3 VV,
    cell1 sizek betafirm st = (Ok ns1, st1) /\
    vectorized_update ns1 st1 = (Ok ns3, st3) /\
    cell7 ns3 st3 = (Ok ns3, st3) /\
    notebook sizek betafirm st = (Ok ns3, st3) /\
    ns_Vmat ns1 <> ns_Vmat ns3 /\
    mats st3 !! ns_Vmat ns1 = Some R /\
    mats st3 !! ns_Vmat ns3 = Some R /\
    (is_finite betafirm = true -> R = mat_zeros N N) /\
    ns_VV ns3 = Some VV /\ mats st3 !! VV = Some (mat_zeros N N) /\
    mats st3 !! ns_e ns3 = Some (mat_zeros N N) /\
    vecs st3 !! ns_V ns3 = Some (replicate N zero).
Proof.
  intros sizek betafirm st N R.
  apply (notebook_result sizek betafirm st). unfold sizek. lia.
Defined.

(** The notebook with its own parameters, [sizek = 3000] and
    [betafirm = 0.96], started with no arrays: the final [Vmat] is the
    3000-by-3000 zero matrix. *)
Corollary notebook_as_written :
  exists ns st',
    notebook notebook_sizek notebook_betafirm (Store ∅ ∅) = (Ok ns, st') /\
    mats st' !! ns_Vmat ns = Some (mat_zeros 3000 3000).
Proof.
  assert (H := notebook_cells notebook_sizek notebook_betafirm (Store ∅ ∅)
                 ltac:(unfold notebook_sizek; lia)).
  cbn zeta in H.
  destruct H as (ns1 & st1 & ns3 & st3 & VV & Hc1 & Hc3 & Hc7 & _ & _ & HR & _).
  exists ns3, st3. split; [unfold notebook, bind; by rewrite Hc1, Hc3|].
  rewrite HR, zero_plus_scaled_zero by reflexivity.
  unfold notebook_sizek. by replace (Z.to_nat 3000) with 3000%nat by lia.
Qed.

(** ** The input matrix as output buffer *)



(** In the scenario the second call in place doubles the row. *)
Example in_place_twice_differs :
  mat_init 3 3 (fun i j =>
    add (update_entry (of_ratio 96 100) (mat_zeros 3 3) scenario_V i j)
        (mul (of_ratio 96 100) (default nan (scenario_V !! j))))
  <> scenario_result.
Proof. vm_compute. discriminate. Qed.
